(** * app_apogee: parsing and aggregation rules of the APOGEE report

    A shallow embedding of [src/app_apogee.py].  The script loads a CSV
    export with pandas, splits three multi-valued columns into lists
    ([nettoyer_liste], [charger_donnees]) and then derives every view of
    the page from the loaded frame [df] and the filtered frame
    [df_filtre].

    Conventions of the embedding:
    - a Python [str] is the list of its code points ([str]);
    - a field read from the file is the missing marker (NaN) or a text
      ([cell]); a cell of the loaded frame is such a field or a list of
      texts ([value]);
    - a [DataFrame] is its column labels and its rows, in order;
    - a statement that raises (a [KeyError] on a missing column, a read
      failure) yields [None] or the error constructor of its result. *)

From Stdlib Require Import String Ascii.
From Stdlib Require Import List NArith Arith Bool Lia.
From Stdlib Require Import Sorting.Sorted Sorting.Permutation.
Import ListNotations.

Set Implicit Arguments.

(** ** Python strings *)

Module PyStr.

(** A [str] is a sequence of Unicode code points. *)
Definition str := list N.

(** Code points of an ASCII literal. *)
Fixpoint lit (s : string) : str :=
  match s with
  | EmptyString => []
  | String a s' => N_of_ascii a :: lit s'
  end.

Definition eqb (a b : str) : bool :=
  if list_eq_dec N.eq_dec a b then true else false.

Definition mem (x : str) (l : list str) : bool := existsb (eqb x) l.

(** [str.isspace] on one character, which is also what [\s] matches in a
    [str] pattern: CPython's [_PyUnicode_IsWhitespace]. *)
Definition isspace (c : N) : bool :=
  ((9 <=? c) && (c <=? 13) || (28 <=? c) && (c <=? 32)
   || (c =? 133) || (c =? 160) || (c =? 5760)
   || (8192 <=? c) && (c <=? 8202)
   || (c =? 8232) || (c =? 8233) || (c =? 8239) || (c =? 8287)
   || (c =? 12288))%N.

Definition comma : N := 44.

Definition is_comma (c : N) : bool := (c =? comma)%N.

Definition head_isspace (s : str) : bool :=
  match s with
  | [] => false
  | c :: _ => isspace c
  end.

(** [s.lstrip()], [s.rstrip()] and [s.strip()] *)
Fixpoint lstrip (s : str) : str :=
  match s with
  | [] => []
  | c :: t => if isspace c then lstrip t else s
  end.

Definition rstrip (s : str) : str := rev (lstrip (rev s)).

Definition strip (s : str) : str := rstrip (lstrip s).

(** [re.split(r',\s+', s)].  The scanner runs left to right.  [cur]
    holds, reversed, the characters of the piece being read; [insep] is
    set while the greedy [\s+] of a separator is being consumed.  A
    comma opens a separator only when a whitespace character follows
    it. *)
Fixpoint split_go (insep : bool) (cur : str) (s : str) : list str :=
  match s with
  | [] => [rev cur]
  | c :: t =>
      if insep && isspace c then split_go true cur t
      else if is_comma c && head_isspace t then rev cur :: split_go true [] t
      else split_go false (c :: cur) t
  end.

Definition re_split (s : str) : list str := split_go false [] s.

(** Truth value of a [str]: non-empty. *)
Definition truthy (s : str) : bool :=
  match s with
  | [] => false
  | _ :: _ => true
  end.

(** Lexicographic order of code points: Python's [<] on [str]. *)
Fixpoint ltb (a b : str) : bool :=
  match a, b with
  | [], [] => false
  | [], _ :: _ => true
  | _ :: _, [] => false
  | x :: a', y :: b' => (x <? y)%N || ((x =? y)%N && ltb a' b')
  end.

End PyStr.

Import PyStr.

(** ** Cells and frames *)

(** A field as [pd.read_csv] gives it in a text column: the missing
    marker or a text.  The columns of the export are text columns; the
    conversion of a column whose fields all read as numbers is left out
    of the model. *)
Inductive cell :=
| NaN
| Str (s : str).

(** A cell of the loaded frame: a field of the file, or one of the lists
    that [charger_donnees] adds. *)
Inductive value :=
| Brut (c : cell)
| Liste (l : list str).

(** [pd.isna] on a scalar. *)
Definition isna (c : cell) : bool :=
  match c with
  | NaN => true
  | Str _ => false
  end.

(** [nettoyer_liste] (lines 18-22). *)
Definition nettoyer_liste (texte : cell) : list str :=
  if isna texte then []
  else
    match texte with
    | NaN => []
    | Str s =>
        let elements := map strip (re_split s) in
        filter truthy elements
    end.

(** Literals of the script. *)
Definition e_acute : N := 233.
Definition e_grave : N := 232.

Definition theses_hdr : str := lit "Th" ++ [e_acute] ++ lit "ses HDR".
Definition gestion : str := lit "Gestion".
Definition inscription : str := lit "Inscription".

(** A row is a record of labelled cells; a table is its column labels
    and its rows, both in order. *)
Definition row (A : Type) := list (str * A).

Record Table (A : Type) := mkTable {
  columns : list str;
  rows : list (row A)
}.

Definition DataFrame := Table value.

Section Rows.
Context {A : Type}.

Fixpoint get (label : str) (r : row A) : option A :=
  match r with
  | [] => None
  | (k, v) :: r' => if PyStr.eqb label k then Some v else get label r'
  end.

(** Assignment to a label: in place when the label exists, at the end
    otherwise. *)
Fixpoint set (label : str) (v : A) (r : row A) : row A :=
  match r with
  | [] => [(label, v)]
  | (k, w) :: r' =>
      if PyStr.eqb label k then (k, v) :: r' else (k, w) :: set label v r'
  end.

Fixpoint set_label (label : str) (cols : list str) : list str :=
  match cols with
  | [] => [label]
  | k :: cols' =>
      if PyStr.eqb label k then cols else k :: set_label label cols'
  end.

(** [df[label]]: the column, or [None] for the [KeyError] of an
    absent label.  [dflt] stands for a field the row lacks. *)
Definition column (dflt : A) (label : str) (t : Table A) : option (list A) :=
  if mem label (columns t)
  then Some (map (fun r => match get label r with Some v => v | None => dflt end) (rows t))
  else None.

(** [df[label] = vals] *)
Definition assign (label : str) (vals : list A) (t : Table A) : Table A :=
  mkTable (set_label label (columns t))
          (map (fun rv => set label (snd rv) (fst rv)) (combine (rows t) vals)).
End Rows.

(** ** Loading (lines 25-35) *)

(** Column labels of the script. *)
Definition col_nom : str := lit "Nom & Prenom".
Definition col_email : str := lit "Email".
Definition col_etab : str := lit "Etablissement".
Definition col_priv_apogee : str := lit "Privil" ++ [e_grave] ++ lit "ges APOGEE".
Definition col_centre_gestion : str := lit "Centre Gestion".
Definition col_centre_traitement : str := lit "Centre Traitement".
Definition col_privileges : str := lit "Privileges".
Definition col_centres_gestion : str := lit "Centres_Gestion".
Definition col_centres_traitement : str := lit "Centres_Traitement".

(** The uploaded file as [pd.read_csv(uploaded_file, encoding='utf-8')]
    sees it: either the call raises (bytes that are not UTF-8, no
    parsable CSV structure), or the file holds a header and rows of field
    texts. *)
Inductive fichier :=
| Illisible
| Contenu (t : Table str).

(** Field texts that [pd.read_csv] reads as missing (its default
    [na_values]). *)
Definition na_values : list str :=
  map lit [EmptyString; "#N/A"; "#N/A N/A"; "#NA"; "-1.#IND"; "-1.#QNAN"; "-NaN";
           "-nan"; "1.#IND"; "1.#QNAN"; "<NA>"; "N/A"; "NA"; "NULL"; "NaN";
           "None"; "n/a"; "nan"; "null"]%string.

Definition read_cell (s : str) : cell :=
  if mem s na_values then NaN else Str s.

Definition map_row {A B : Type} (f : A -> B) (r : row A) : row B :=
  map (fun kv => (fst kv, f (snd kv))) r.

Definition map_table {A B : Type} (f : A -> B) (t : Table A) : Table B :=
  mkTable (columns t) (map (map_row f) (rows t)).

Definition read_csv (f : fichier) : option (Table cell) :=
  match f with
  | Illisible => None
  | Contenu t => Some (map_table read_cell t)
  end.

(** Result of [charger_donnees]: the frame, or [None] after the
    [st.error] message of the [except] branch. *)
Inductive chargement :=
| Erreur
| Charge (df : DataFrame).

(** [df[label].apply(nettoyer_liste)] on a frame whose column [label]
    still holds the fields of the file. *)
Definition brut (v : value) : cell :=
  match v with
  | Brut c => c
  | Liste _ => NaN
  end.

Definition apply_nettoyer (label : str) (df : DataFrame) : option (list value) :=
  match column (Brut NaN) label df with
  | Some vals => Some (map (fun v => Liste (nettoyer_liste (brut v))) vals)
  | None => None
  end.

Definition charger_donnees (uploaded_file : fichier) : chargement :=
  match read_csv uploaded_file with
  | None => Erreur
  | Some t =>
      let df := map_table Brut t in
      match apply_nettoyer col_priv_apogee df with
      | None => Erreur
      | Some privs =>
          let df := assign col_privileges privs df in
          match apply_nettoyer col_centre_gestion df with
          | None => Erreur
          | Some cg =>
              let df := assign col_centres_gestion cg df in
              match apply_nettoyer col_centre_traitement df with
              | None => Erreur
              | Some ct => Charge (assign col_centres_traitement ct df)
              end
          end
      end
  end.

(** ** Filters (lines 64-69) *)

Definition cell_eqb (a b : cell) : bool :=
  match a, b with
  | NaN, NaN => true
  | Str x, Str y => PyStr.eqb x y
  | _, _ => false
  end.

(** [Series.isin(values)]: membership, a missing field matching a
    missing value. *)
Definition isin (c : cell) (values : list cell) : bool :=
  existsb (cell_eqb c) values.

(** The field under a label holding fields of the file, and the list
    under a label holding lists. *)
Definition cell_at (label : str) (r : row value) : cell :=
  match get label r with
  | Some (Brut c) => c
  | _ => NaN
  end.

Definition liste_at (label : str) (r : row value) : list str :=
  match get label r with
  | Some (Liste l) => l
  | _ => []
  end.

Definition has (label : str) (df : DataFrame) : bool := mem label (columns df).

(** [df[mask]]: the rows where the mask holds, columns unchanged. *)
Definition select (mask : row value -> bool) (df : DataFrame) : DataFrame :=
  mkTable (columns df) (filter mask (rows df)).

(** Line 65: [df[df['Etablissement'].isin(etablissements)]]. *)
Definition filtrer_etablissements (etablissements : list cell) (df : DataFrame)
  : option DataFrame :=
  if has col_etab df
  then Some (select (fun r => isin (cell_at col_etab r) etablissements) df)
  else None.

(** [any(p in x for p in privileges_selectionnes)] *)
Definition any_in (privileges_selectionnes : list str) (x : list str) : bool :=
  existsb (fun p => mem p x) privileges_selectionnes.

(** Lines 66-69. *)
Definition filtrer_privileges (privileges_selectionnes : list str)
  (df_filtre : DataFrame) : option DataFrame :=
  match privileges_selectionnes with
  | [] => Some df_filtre
  | _ :: _ =>
      if has col_privileges df_filtre
      then Some (select (fun r => any_in privileges_selectionnes
                                    (liste_at col_privileges r)) df_filtre)
      else None
  end.

(** [Series.unique()]: the distinct values in order of first
    appearance. *)
Fixpoint unique_from (seen : list cell) (l : list cell) : list cell :=
  match l with
  | [] => []
  | c :: l' =>
      if isin c seen then unique_from seen l'
      else c :: unique_from (c :: seen) l'
  end.

Definition unique (l : list cell) : list cell := unique_from [] l.

(** The options that the sidebar offers, and selects by default, for the
    institutions (lines 54-55): [df['Etablissement'].unique()]. *)
Definition all_etablissements (df : DataFrame) : list cell :=
  unique (map (cell_at col_etab) (rows df)).

(** The two frames of the script once the filters are applied. *)
Record etat := mkEtat {
  v_df : DataFrame;
  v_df_filtre : DataFrame
}.

(** Lines 65-69 as a step on the variables: [df_filtre] is assigned,
    [df] is only read. *)
Definition appliquer_filtres (etablissements : list cell)
  (privileges_selectionnes : list str) (df : DataFrame) : option etat :=
  match filtrer_etablissements etablissements df with
  | None => None
  | Some d =>
      match filtrer_privileges privileges_selectionnes d with
      | None => None
      | Some d' => Some (mkEtat df d')
      end
  end.

(** ** Counts (lines 92 and 119-121) *)

(** [Series.value_counts()]: occurrences are counted in a table that
    keeps the keys in order of first appearance, then the table is
    sorted by descending count, equal counts keeping their order. *)
Fixpoint incr (k : str) (t : list (str * nat)) : list (str * nat) :=
  match t with
  | [] => [(k, 1)]
  | (k', n) :: t' =>
      if PyStr.eqb k k' then (k', S n) :: t' else (k', n) :: incr k t'
  end.

Definition count_table (l : list str) : list (str * nat) :=
  fold_left (fun t k => incr k t) l [].

Fixpoint insert_desc (x : str * nat) (l : list (str * nat)) : list (str * nat) :=
  match l with
  | [] => [x]
  | y :: l' =>
      if snd y <=? snd x then x :: l else y :: insert_desc x l'
  end.

Definition sort_desc (l : list (str * nat)) : list (str * nat) :=
  fold_right insert_desc [] l.

Definition value_counts (l : list str) : list (str * nat) :=
  sort_desc (count_table l).

(** Missing fields are left out of the counts ([dropna=True]). *)
Definition dropna (l : list cell) : list str :=
  flat_map (fun c => match c with NaN => [] | Str s => [s] end) l.

(** Line 92: [df_filtre['Etablissement'].value_counts()]. *)
Definition users_par_etab (df_filtre : DataFrame) : option (list (str * nat)) :=
  if has col_etab df_filtre
  then Some (value_counts (dropna (map (cell_at col_etab) (rows df_filtre))))
  else None.

(** [[p for sublist in df['Privileges'] for p in sublist]] *)
Definition all_privileges (df : DataFrame) : list str :=
  List.concat (map (liste_at col_privileges) (rows df)).

(** Lines 119-121, with the bound of [head] as a parameter; the script
    takes 5. *)
Definition top_privileges_n (n : nat) (df_filtre : DataFrame)
  : option (list (str * nat)) :=
  if has col_privileges df_filtre
  then Some (firstn n (value_counts (all_privileges df_filtre)))
  else None.


(** ** Special users (lines 166-167 and 179-184) *)

Definition str_eq_dec : forall a b : str, {a = b} + {a <> b} :=
  list_eq_dec N.eq_dec.

(** Line 166: rows whose privileges hold [theses_hdr]. *)
Definition users_with (name : str) (df_filtre : DataFrame) : option DataFrame :=
  if has col_privileges df_filtre
  then Some (select (fun r => mem name (liste_at col_privileges r)) df_filtre)
  else None.

Definition users_theses_hdr : DataFrame -> option DataFrame :=
  users_with theses_hdr.

(** [set(...)] then [discard(excluded)]: a duplicate-free list. *)
Definition tous_privileges_sauf (excluded : str) (df : DataFrame) : list str :=
  remove str_eq_dec excluded (nodup str_eq_dec (all_privileges df)).

(** [all(priv in x for priv in tous_privileges)] *)
Definition all_in (tous_privileges : list str) (x : list str) : bool :=
  forallb (fun priv => mem priv x) tous_privileges.

(** Lines 179-184, with the discarded privilege as a parameter; the
    script discards [theses_hdr].  The universe comes from [df], the
    rows from [df_filtre]. *)
Definition users_tous_sauf (excluded : str) (df df_filtre : DataFrame)
  : option DataFrame :=
  if has col_privileges df && has col_privileges df_filtre
  then
    let tous_privileges := tous_privileges_sauf excluded df in
    Some (select (fun r => all_in tous_privileges (liste_at col_privileges r))
                 df_filtre)
  else None.

Definition users_tous_sauf_theses : DataFrame -> DataFrame -> option DataFrame :=
  users_tous_sauf theses_hdr.

(** ** One pass of the page (lines 64-184) *)



(** ** Export and reload (lines 218-223) *)

Definition apostrophe : N := 39.
Definition guillemet : N := 34.
Definition backslash : N := 92.

Definition hex_digit (d : N) : N := (if d <? 10 then 48 + d else 87 + d)%N.

Fixpoint hex (width : nat) (c : N) : str :=
  match width with
  | 0 => []
  | S w => hex w (c / 16)%N ++ [hex_digit (c mod 16)%N]
  end.

(** [str.isprintable] on one character.  The table is exact up to
    U+00FF; above, every character other than the separators of
    [isspace] is taken as printable. *)
Definition isprintable (c : N) : bool :=
  ((32 <=? c) && (c <=? 126)
   || (161 <=? c) && (c <=? 255) && negb (c =? 173)
   || (256 <=? c) && negb (isspace c))%N.

(** [repr] of a [str]: apostrophes around it, or double quotes when it
    holds an apostrophe and no double quote; the quote and the backslash
    escaped, as are the characters that are not printable. *)
Definition repr_char (quote c : N) : str :=
  (if (c =? quote) || (c =? backslash) then [backslash; c]
   else if c =? 9 then [backslash; 116]
   else if c =? 10 then [backslash; 110]
   else if c =? 13 then [backslash; 114]
   else if isprintable c then [c]
   else if c <? 256 then backslash :: 120 :: hex 2 c
   else if c <? 65536 then backslash :: 117 :: hex 4 c
   else backslash :: 85 :: hex 8 c)%N.

Definition repr_str (s : str) : str :=
  let quote :=
    if existsb (N.eqb apostrophe) s && negb (existsb (N.eqb guillemet) s)
    then guillemet else apostrophe in
  quote :: flat_map (repr_char quote) s ++ [quote].

(** [sep.join(l)] *)
Fixpoint join (sep : str) (l : list str) : str :=
  match l with
  | [] => []
  | x :: l' =>
      match l' with
      | [] => x
      | _ :: _ => x ++ sep ++ join sep l'
      end
  end.

(** [str] of a list of texts: the [repr] of the items between brackets. *)
Definition str_of_list (l : list str) : str :=
  91%N :: join (lit ", ") (map repr_str l) ++ [93%N].


Definition getd (label : str) (r : row value) : value :=
  match get label r with
  | Some v => v
  | None => Brut NaN
  end.



(** ** Sidebar options and key figures (lines 52-77) *)

(** [sorted(l)] on texts: ascending, equal texts keeping their order. *)
Fixpoint insert_str (x : str) (l : list str) : list str :=
  match l with
  | [] => [x]
  | y :: l' => if PyStr.ltb y x then y :: insert_str x l' else x :: l
  end.

Definition sorted (l : list str) : list str := fold_right insert_str [] l.

(** Line 60: the options of the privilege selector,
    [sorted(list(set([p for sublist in df['Privileges'] for p in sublist])))]. *)
Definition options_privileges (df : DataFrame) : option (list str) :=
  if has col_privileges df
  then Some (sorted (nodup str_eq_dec (all_privileges df)))
  else None.

(** [Series.nunique()]: the number of distinct values, a missing field
    not counted. *)
Definition nunique (l : list cell) : nat :=
  length (filter (fun c => negb (isna c)) (unique l)).

(** Lines 74-77: the three key figures. *)
Record indicateurs := mkIndicateurs {
  nb_utilisateurs : nat;
  nb_etablissements : nat;
  nb_theses_hdr : nat
}.

Definition indicateurs_cles (df_filtre : DataFrame) : option indicateurs :=
  if has col_etab df_filtre && has col_privileges df_filtre
  then Some (mkIndicateurs
               (length (rows df_filtre))
               (nunique (map (cell_at col_etab) (rows df_filtre)))
               (length (rows (select (fun r => mem theses_hdr
                                                (liste_at col_privileges r))
                                     df_filtre))))
  else None.

(** ** Privileges per institution (lines 134-135) *)

(** [df_filtre.explode('Privileges')] then the keys of
    [groupby(['Etablissement', 'Privileges'])]: one pair per privilege of
    each row; a row without institution or without privilege gives a
    missing key and is left out of the groups. *)
Definition paires (df_filtre : DataFrame) : list (str * str) :=
  flat_map (fun r => match cell_at col_etab r with
                     | NaN => []
                     | Str e => map (fun p => (e, p)) (liste_at col_privileges r)
                     end)
           (rows df_filtre).

Definition pair_eqb (a b : str * str) : bool :=
  PyStr.eqb (fst a) (fst b) && PyStr.eqb (snd a) (snd b).

(** [.size()] of one group. *)
Definition group_size (e p : str) (l : list (str * str)) : nat :=
  length (filter (pair_eqb (e, p)) l).

(** The cross table after [.unstack().fillna(0)]: institutions in
    ascending order down, privileges in ascending order across, and in
    each cell the size of the group, 0 when there is none. *)
Record Crosstab := mkCrosstab {
  ct_index : list str;
  ct_columns : list str;
  ct_values : list (list nat)
}.

Definition privileges_etab (df_filtre : DataFrame) : option Crosstab :=
  if has col_privileges df_filtre && has col_etab df_filtre
  then
    let groupes := paires df_filtre in
    let index := sorted (nodup str_eq_dec (map fst groupes)) in
    let colonnes := sorted (nodup str_eq_dec (map snd groupes)) in
    Some (mkCrosstab index colonnes
            (map (fun e => map (fun p => group_size e p groupes) colonnes) index))
  else None.

(** ** Lists of users (lines 166-175 and 198-215) *)

(** [df[labels]]: the columns named, in that order; [None] for the
    [KeyError] of an absent label. *)
Definition project (labels : list str) (df : DataFrame) : option DataFrame :=
  if forallb (fun k => has k df) labels
  then Some (mkTable labels
               (map (fun r => map (fun k => (k, getd k r)) labels) (rows df)))
  else None.

(** [DataFrame.empty]: no row or no column. *)
Definition empty (df : DataFrame) : bool :=
  match rows df, columns df with
  | [], _ => true
  | _, [] => true
  | _ :: _, _ :: _ => false
  end.

(** What a column of the third tab shows: the table of three columns, or
    the [st.info] message when the list of users is empty. *)
Inductive affichage :=
| Tableau (t : DataFrame)
| Aucun.

Definition colonnes_tab3 : list str := [col_nom; col_etab; col_privileges].

Definition afficher (users : DataFrame) : option affichage :=
  if negb (empty users)
  then match project colonnes_tab3 users with
       | Some t => Some (Tableau t)
       | None => None
       end
  else Some Aucun.

(** Lines 166-175. *)
Definition tab3_theses_hdr (df_filtre : DataFrame) : option affichage :=
  match users_theses_hdr df_filtre with
  | Some users => afficher users
  | None => None
  end.

(** Order of [sort_values] on a text column: ascending texts, the
    missing fields last. *)
Definition cell_ltb (a b : cell) : bool :=
  match a, b with
  | Str x, Str y => PyStr.ltb x y
  | Str _, NaN => true
  | NaN, _ => false
  end.

Fixpoint insert_row (label : str) (x : row value) (l : list (row value))
  : list (row value) :=
  match l with
  | [] => [x]
  | y :: l' =>
      if cell_ltb (cell_at label y) (cell_at label x)
      then y :: insert_row label x l'
      else x :: l
  end.

(** [df.sort_values(label)]; rows of equal key are kept in their order. *)
Definition sort_values (label : str) (df : DataFrame) : option DataFrame :=
  if has label df
  then Some (mkTable (columns df) (fold_right (insert_row label) [] (rows df)))
  else None.

(** [sorted(values)] on the distinct values of a column: comparing a
    text with the missing marker raises [TypeError]; missing markers alone
    are left as they are. *)
Definition sorted_cells (values : list cell) : option (list cell) :=
  if forallb isna values then Some values
  else if existsb isna values then None
  else Some (map Str (sorted (dropna values))).

(** [series == value]: a missing field equals nothing. *)
Definition cell_eq (a b : cell) : bool :=
  match a, b with
  | Str x, Str y => PyStr.eqb x y
  | _, _ => false
  end.

(** One [st.expander] of the fourth tab: the institution, the number of
    users of its title and the table shown. *)
Record expander := mkExpander {
  exp_etablissement : cell;
  exp_utilisateurs : nat;
  exp_table : DataFrame
}.

Definition colonnes_tab4 : list str :=
  [col_nom; col_email; col_privileges; col_centre_gestion; col_centre_traitement].

Fixpoint map_option {X Y : Type} (f : X -> option Y) (l : list X) : option (list Y) :=
  match l with
  | [] => Some []
  | x :: l' =>
      match f x with
      | None => None
      | Some y =>
          match map_option f l' with
          | None => None
          | Some ys => Some (y :: ys)
          end
      end
  end.

(** The rows of [df_grouped] of one institution. *)
Definition groupe (etablissement : cell) (df_grouped : DataFrame) : DataFrame :=
  select (fun r => cell_eq (cell_at col_etab r) etablissement) df_grouped.

(** Lines 198-215. *)
Definition tab4 (df_filtre : DataFrame) : option (list expander) :=
  match sort_values col_etab df_filtre with
  | None => None
  | Some df_grouped =>
      match sorted_cells (unique (map (cell_at col_etab) (rows df_grouped))) with
      | None => None
      | Some etablissements =>
          map_option
            (fun etablissement =>
               let g := groupe etablissement df_grouped in
               match project colonnes_tab4 g with
               | Some t => Some (mkExpander etablissement (length (rows g)) t)
               | None => None
               end)
            etablissements
      end
  end.

(** * Vocabulary of the properties *)

Unset Implicit Arguments.

(** ** The splitting rule *)

(** No comma of [s] is followed by a whitespace character. *)
Fixpoint nosep (s : str) : bool :=
  match s with
  | [] => true
  | c :: t => negb (is_comma c && head_isspace t) && nosep t
  end.

(** The rule in the words of the specification: the text is cut at each
    comma followed by one or more whitespace characters, the separator
    taking all the whitespace that follows the comma. *)
Inductive split_spec : str -> list str -> Prop :=
| split_last : forall s, nosep s = true -> split_spec s [s]
| split_cut : forall a ws b pieces,
    nosep a = true ->
    ws <> [] -> forallb isspace ws = true -> head_isspace b = false ->
    split_spec b pieces ->
    split_spec (a ++ comma :: ws ++ b) (a :: pieces).

(** [m] is [s] without its leading and trailing whitespace. *)
Definition trim_spec (s m : str) : Prop :=
  exists l r, s = l ++ m ++ r /\
              forallb isspace l = true /\ forallb isspace r = true /\
              head_isspace m = false /\ head_isspace (rev m) = false.

(** ** Subsequences *)

Inductive subseq {A : Type} : list A -> list A -> Prop :=
| subseq_nil : subseq [] []
| subseq_skip : forall x l1 l2, subseq l1 l2 -> subseq l1 (x :: l2)
| subseq_keep : forall x l1 l2, subseq l1 l2 -> subseq (x :: l1) (x :: l2).

(** ** Ranking of counts *)

(** Position of the first occurrence of [k] in [l] (the length of [l]
    when there is none). *)
Fixpoint first_index (k : str) (l : list str) : nat :=
  match l with
  | [] => 0
  | x :: l' => if PyStr.eqb k x then 0 else S (first_index k l')
  end.

(** The distinct elements of [l] in order of first appearance. *)
Definition firsts (l : list str) : list str :=
  fold_left (fun acc x => if mem x acc then acc else acc ++ [x]) l [].

Definition occurrences (l : list str) (k : str) : nat := count_occ str_eq_dec l k.

(** Ranking of two counted keys: the greater count first, and for equal
    counts the key of lower position first. *)
Definition before (pos : str -> nat) (a b : str * nat) : Prop :=
  snd b < snd a \/ (snd a = snd b /\ pos (fst a) < pos (fst b)).



(** ** Frames produced by loading and filtering *)

(** What [charger_donnees] does to one row of the file once its fields
    are read. *)
Definition charger_ligne (r : row value) : row value :=
  let r1 := set col_privileges
                (Liste (nettoyer_liste (cell_at col_priv_apogee r))) r in
  let r2 := set col_centres_gestion
                (Liste (nettoyer_liste (cell_at col_centre_gestion r1))) r1 in
  set col_centres_traitement
      (Liste (nettoyer_liste (cell_at col_centre_traitement r2))) r2.

Definition charger_colonnes (cols : list str) : list str :=
  set_label col_centres_traitement
    (set_label col_centres_gestion (set_label col_privileges cols)).

Definition is_derived (k : str) : bool :=
  PyStr.eqb k col_privileges || PyStr.eqb k col_centres_gestion
  || PyStr.eqb k col_centres_traitement.






(** ** Files and frames of the scenarios *)

(** Three users for the scenarios: the privileges seen are
    [theses_hdr], [gestion] and [inscription]. *)
Definition exemple_colonnes : list str :=
  [col_nom; col_email; col_etab; col_priv_apogee; col_centre_gestion;
   col_centre_traitement].

Definition exemple_table : Table str :=
  mkTable exemple_colonnes
    [ combine exemple_colonnes
        [lit "Jean Dupont"; lit "jean@x.fr"; lit "UniB";
         theses_hdr ++ lit ", " ++ gestion; lit "CentreA"; lit "CentreB"];
      combine exemple_colonnes
        [lit "Anne Martin"; lit "anne@x.fr"; lit "UniA";
         gestion ++ lit ", " ++ inscription; lit "CentreA"; []];
      combine exemple_colonnes
        [lit "Luc Petit"; lit "luc@x.fr"; lit "UniB";
         gestion; []; lit "CentreB"] ].

Definition exemple_fichier : fichier := Contenu exemple_table.

Definition exemple_df : DataFrame :=
  match charger_donnees exemple_fichier with
  | Charge df => df
  | Erreur => mkTable [] []
  end.


(** A file without the Email column: the five other columns of the
    example. *)
Definition exemple_sans_email : fichier :=
  let colonnes := [col_nom; col_etab; col_priv_apogee; col_centre_gestion;
                   col_centre_traitement] in
  Contenu (mkTable colonnes
    [ combine colonnes
        [lit "Jean Dupont"; lit "UniB"; theses_hdr ++ lit ", " ++ gestion;
         lit "CentreA"; lit "CentreB"] ]).


(** ** Masks of the two filters *)

Definition masque_etablissements (E : list cell) (r : row value) : bool :=
  isin (cell_at col_etab r) E.

Definition masque_privileges (P : list str) (r : row value) : bool :=
  match P with
  | [] => true
  | _ :: _ => any_in P (liste_at col_privileges r)
  end.

(** ** Clean texts *)

(** A text as the parser returns them: not empty, no whitespace at
    either end, no comma followed by whitespace. *)
Definition propre (e : str) : Prop :=
  e <> [] /\ head_isspace e = false /\ head_isspace (rev e) = false
  /\ nosep e = true.

(** The field of a row of the file as [pd.read_csv] reads it. *)
Definition lire (label : str) (r0 : row str) : cell :=
  match get label r0 with
  | Some s => read_cell s
  | None => NaN
  end.

(** ** Occurrences of a privilege in an institution *)

(** The rows of institution [e]. *)
Definition rows_etab (d : DataFrame) (e : str) : list (row value) :=
  filter (fun r => cell_eqb (cell_at col_etab r) (Str e)) (rows d).

(** Number of times that the users of institution [e] hold [p]. *)
Definition occurrences_etab (d : DataFrame) (e p : str) : nat :=
  list_sum (map (fun r => occurrences (liste_at col_privileges r) p)
                (rows_etab d e)).

(** The rows that have an institution. *)
Definition avec_etablissement (d : DataFrame) : DataFrame :=
  select (fun r => negb (isna (cell_at col_etab r))) d.

(** * Properties *)

Example nettoyer_liste_scenario :
  nettoyer_liste (Str (theses_hdr ++ lit ", " ++ gestion)) = [theses_hdr; gestion].
Proof. reflexivity. Qed.

(** ** Splitting and trimming *)

Lemma comma_not_space : isspace comma = false.
Proof. reflexivity. Qed.

Lemma head_isspace_app (a b : str) :
  head_isspace (a ++ b) = match a with [] => head_isspace b | _ => head_isspace a end.
Proof. destruct a; reflexivity. Qed.

Lemma split_go_nosep (s cur : str) :
  nosep s = true -> split_go false cur s = [rev cur ++ s].
Proof.
  revert cur; induction s as [|c t IH]; intros cur H; simpl in *.
  - now rewrite app_nil_r.
  - apply andb_prop in H as [H1 H2].
    apply negb_true_iff in H1. rewrite H1.
    rewrite (IH (c :: cur) H2). simpl. now rewrite <- app_assoc.
Qed.

Lemma split_go_skip (ws b : str) :
  forallb isspace ws = true -> head_isspace b = false ->
  split_go true [] (ws ++ b) = split_go false [] b.
Proof.
  intros Hws Hb. induction ws as [|w ws IH]; simpl in *.
  - destruct b as [|c t]; simpl in *; [reflexivity|]. now rewrite Hb.
  - apply andb_prop in Hws as [Hw Hws]. rewrite Hw. now apply IH.
Qed.

Lemma split_go_cut (a ws b cur : str) :
  nosep a = true -> ws <> [] -> forallb isspace ws = true ->
  head_isspace b = false ->
  split_go false cur (a ++ comma :: ws ++ b)
  = (rev cur ++ a) :: split_go false [] b.
Proof.
  intros Ha Hne Hws Hb. revert cur.
  induction a as [|c t IH]; intros cur; simpl in *.
  - destruct ws as [|w ws]; [congruence|]. simpl in Hws.
    apply andb_prop in Hws as [Hw Hws]. simpl. rewrite Hw. simpl.
    rewrite app_nil_r. f_equal.
    apply (split_go_skip ws b Hws Hb).
  - apply andb_prop in Ha as [H1 H2].
    apply negb_true_iff in H1.
    assert (Hc : is_comma c && head_isspace (t ++ comma :: ws ++ b) = false).
    { rewrite head_isspace_app. destruct t as [|d t'].
      - simpl. rewrite comma_not_space. apply andb_false_r.
      - exact H1. }
    rewrite Hc. rewrite (IH H2 (c :: cur)). simpl. now rewrite <- app_assoc.
Qed.

Lemma re_split_sound (s : str) (pieces : list str) :
  split_spec s pieces -> re_split s = pieces.
Proof.
  unfold re_split. induction 1 as [s H | a ws b pieces Ha Hne Hws Hb _ IH].
  - now rewrite split_go_nosep.
  - rewrite (split_go_cut a ws b [] Ha Hne Hws Hb). simpl. now f_equal.
Qed.

(** Every text has a first separator or none. *)
Lemma first_separator (s : str) :
  nosep s = true \/
  exists a ws b, s = a ++ comma :: ws ++ b /\ nosep a = true /\ ws <> [] /\
                 forallb isspace ws = true /\ head_isspace b = false /\
                 length b < length s.
Proof.
  induction s as [|c t IH]; [now left|].
  destruct (is_comma c && head_isspace t) eqn:E.
  - right. apply andb_prop in E as [Ec Et].
    apply N.eqb_eq in Ec. subst c.
    assert (Hl : forall u : str, exists ws b,
               u = ws ++ b /\ forallb isspace ws = true /\ head_isspace b = false).
    { induction u as [|d u IHu].
      - exists [], []. repeat split.
      - destruct (isspace d) eqn:Ed.
        + destruct IHu as (ws & b & -> & Hws & Hb).
          exists (d :: ws), b. simpl. now rewrite Ed.
        + exists [], (d :: u). simpl. now rewrite Ed. }
    destruct (Hl t) as (ws & b & -> & Hws & Hb).
    exists [], ws, b. simpl. repeat split; auto.
    + intros ->. simpl in Et. congruence.
    + rewrite length_app. lia.
  - destruct IH as [IH | (a & ws & b & -> & Ha & Hne & Hws & Hb & Hlen)].
    + left. simpl. now rewrite E, IH.
    + right. exists (c :: a), ws, b. simpl. repeat split; auto.
      rewrite Ha, andb_true_r. apply negb_true_iff.
      rewrite head_isspace_app in E. destruct a as [|d a'].
      * destruct (is_comma c); reflexivity.
      * exact E.
Qed.

Lemma re_split_spec (s : str) : split_spec s (re_split s).
Proof.
  assert (H : forall n (u : str), length u < n -> exists p, split_spec u p).
  { induction n as [|n IH]; intros u Hu; [lia|].
    destruct (first_separator u)
      as [Hn | (a & ws & b & -> & Ha & Hne & Hws & Hb & Hlen)].
    - exists [u]. now constructor.
    - destruct (IH b) as [p Hp]; [lia|].
      exists (a :: p). now constructor. }
  destruct (H (S (length s)) s) as [p Hp]; [lia|].
  now rewrite (re_split_sound _ _ Hp).
Qed.

Lemma lstrip_app_space (l t : str) :
  forallb isspace l = true -> lstrip (l ++ t) = lstrip t.
Proof.
  induction l as [|c l IH]; simpl; intros H; [reflexivity|].
  apply andb_prop in H as [Hc Hl]. rewrite Hc. now apply IH.
Qed.

Lemma lstrip_fix (s : str) : head_isspace s = false -> lstrip s = s.
Proof. destruct s as [|c t]; simpl; intros H; [reflexivity | now rewrite H]. Qed.

Lemma lstrip_decomp (s : str) :
  exists l, s = l ++ lstrip s /\ forallb isspace l = true.
Proof.
  induction s as [|c t (l & Hl & Hsp)]; simpl.
  - now exists [].
  - destruct (isspace c) eqn:E.
    + exists (c :: l). simpl. rewrite E. split; [now f_equal | exact Hsp].
    + now exists [].
Qed.

Lemma lstrip_head (s : str) : head_isspace (lstrip s) = false.
Proof.
  induction s as [|c t IH]; simpl; [reflexivity|].
  destruct (isspace c) eqn:E; [exact IH | simpl; exact E].
Qed.

Lemma forallb_rev (f : N -> bool) (l : str) :
  forallb f (rev l) = forallb f l.
Proof.
  induction l as [|c l IH]; simpl; [reflexivity|].
  rewrite forallb_app, IH. simpl. rewrite andb_true_r. apply andb_comm.
Qed.

Lemma trim_unique (s m : str) : trim_spec s m -> strip s = m.
Proof.
  intros (l & r & -> & Hl & Hr & Hm & Hm').
  unfold strip, rstrip. rewrite (lstrip_app_space l _ Hl).
  destruct m as [|c m'].
  - simpl. rewrite <- (app_nil_r r), (lstrip_app_space r [] Hr). reflexivity.
  - assert (E : lstrip ((c :: m') ++ r) = (c :: m') ++ r)
      by (apply lstrip_fix; exact Hm).
    rewrite E, rev_app_distr, lstrip_app_space by (now rewrite forallb_rev).
    rewrite (lstrip_fix _ Hm'). apply rev_involutive.
Qed.

Lemma strip_spec (s : str) : trim_spec s (strip s).
Proof.
  destruct (lstrip_decomp s) as (l & Hs & Hl).
  destruct (lstrip_decomp (rev (lstrip s))) as (r & Hr & Hrs).
  exists l, (rev r). unfold strip, rstrip.
  assert (Hmid : lstrip s = rev (lstrip (rev (lstrip s))) ++ rev r).
  { rewrite <- rev_app_distr, <- Hr. symmetry. apply rev_involutive. }
  repeat split.
  - rewrite <- Hmid. exact Hs.
  - exact Hl.
  - now rewrite forallb_rev.
  - pose proof (lstrip_head s) as Hh. rewrite Hmid in Hh.
    rewrite head_isspace_app in Hh.
    destruct (rev (lstrip (rev (lstrip s)))); [reflexivity | exact Hh].
  - rewrite rev_involutive. apply lstrip_head.
Qed.

Lemma strip_idempotent (s : str) : strip (strip s) = strip s.
Proof.
  apply trim_unique. destruct (strip_spec s) as (_ & _ & _ & _ & _ & H1 & H2).
  exists [], []. rewrite app_nil_r. now repeat split.
Qed.

Lemma space_not_comma (c : N) : isspace c = true -> is_comma c = false.
Proof.
  intros H. unfold is_comma. apply N.eqb_neq. intros ->.
  rewrite comma_not_space in H. discriminate.
Qed.

Lemma blank_nosep (s : str) : forallb isspace s = true -> nosep s = true.
Proof.
  induction s as [|c t IH]; simpl; [reflexivity|].
  intros H. apply andb_prop in H as [Hc Ht].
  now rewrite (space_not_comma c Hc), IH.
Qed.

Lemma strip_blank (s : str) : forallb isspace s = true -> strip s = [].
Proof.
  intros H. apply trim_unique. exists s, []. rewrite app_nil_r. now repeat split.
Qed.

Lemma trimmed_exists (pieces : list str) :
  Forall2 trim_spec pieces (map strip pieces).
Proof.
  induction pieces; simpl; constructor; [apply strip_spec | assumption].
Qed.

Lemma trimmed_unique (pieces trimmed : list str) :
  Forall2 trim_spec pieces trimmed -> map strip pieces = trimmed.
Proof.
  induction 1 as [|p m ps ms H _ IH]; simpl; [reflexivity|].
  now rewrite (trim_unique p m H), IH.
Qed.

Lemma nettoyer_liste_Str (s : str) :
  nettoyer_liste (Str s) = filter truthy (map strip (re_split s)).
Proof. reflexivity. Qed.

(** C1. The multi-value parser [nettoyer_liste]: a missing cell and a
    blank cell give the empty list; a text is cut at each comma followed
    by one or more whitespace characters ([split_spec], which every text
    satisfies for exactly one list of pieces), each piece is trimmed
    ([trim_spec]) and the pieces left empty are dropped; hence every
    element returned is non-empty and unchanged by trimming.  The cell
    "Theses HDR, Gestion" (with its accent) gives the two privileges. *)
Theorem nettoyer_liste_correct :
  nettoyer_liste NaN = []
  /\ (forall s, forallb isspace s = true -> nettoyer_liste (Str s) = [])
  /\ (forall s, exists pieces trimmed,
         split_spec s pieces /\ Forall2 trim_spec pieces trimmed)
  /\ (forall s pieces trimmed,
         split_spec s pieces -> Forall2 trim_spec pieces trimmed ->
         nettoyer_liste (Str s) = filter truthy trimmed)
  /\ (forall c e, In e (nettoyer_liste c) -> e <> [] /\ strip e = e)
  /\ nettoyer_liste (Str (theses_hdr ++ lit ", " ++ gestion))
     = [theses_hdr; gestion].
Proof.
  split; [reflexivity|]. split; [|split; [|split; [|split]]].
  - intros s H. rewrite nettoyer_liste_Str.
    rewrite (re_split_sound s [s]) by (constructor; now apply blank_nosep).
    simpl. now rewrite (strip_blank s H).
  - intros s. exists (re_split s), (map strip (re_split s)).
    split; [apply re_split_spec | apply trimmed_exists].
  - intros s pieces trimmed Hs Ht. rewrite nettoyer_liste_Str.
    now rewrite (re_split_sound s pieces Hs), (trimmed_unique pieces trimmed Ht).
  - intros [|s] e; [simpl; tauto|]. rewrite nettoyer_liste_Str. intros H.
    apply filter_In in H as [Hin Hne]. apply in_map_iff in Hin as (p & <- & _).
    split; [|apply strip_idempotent].
    intros E. rewrite E in Hne. discriminate.
  - reflexivity.
Qed.

Lemma nettoyer_liste_correct_witness :
  nettoyer_liste (Str (lit "  ")) = []
  /\ nettoyer_liste (Str (lit "a, , b")) = filter truthy [lit "a"; []; lit "b"]
  /\ (gestion <> [] /\ strip gestion = gestion).
Proof.
  destruct nettoyer_liste_correct as (_ & Hblank & _ & Hcut & Hne & _).
  split; [apply Hblank; reflexivity|]. split.
  - apply (Hcut (lit "a, , b") [lit "a"; []; lit "b"] [lit "a"; []; lit "b"]).
    + apply (split_cut (lit "a") (lit " ") (lit ", b") [[]; lit "b"]);
        try reflexivity; [discriminate|].
      apply (split_cut [] (lit " ") (lit "b") [lit "b"]);
        try reflexivity; [discriminate|].
      apply split_last. reflexivity.
    + repeat constructor; exists [], []; repeat split.
  - apply (Hne (Str (theses_hdr ++ lit ", " ++ gestion)) gestion).
    simpl. right. left. reflexivity.
Defined.

(** ** Membership tests *)

Lemma eqb_eq (a b : str) : PyStr.eqb a b = true <-> a = b.
Proof.
  unfold PyStr.eqb. destruct (list_eq_dec N.eq_dec a b); split; congruence.
Qed.

Lemma eqb_refl (a : str) : PyStr.eqb a a = true.
Proof. now apply eqb_eq. Qed.

Lemma eqb_neq (a b : str) : PyStr.eqb a b = false <-> a <> b.
Proof.
  unfold PyStr.eqb. destruct (list_eq_dec N.eq_dec a b); split; congruence.
Qed.

Lemma mem_In (x : str) (l : list str) : mem x l = true <-> In x l.
Proof.
  unfold mem. rewrite existsb_exists. split.
  - intros (y & Hy & E). apply eqb_eq in E. now subst.
  - intros H. exists x. split; [assumption | apply eqb_refl].
Qed.

Lemma cell_eqb_eq (a b : cell) : cell_eqb a b = true <-> a = b.
Proof.
  destruct a as [|x], b as [|y]; simpl; try (split; congruence).
  rewrite eqb_eq. split; congruence.
Qed.

Lemma isin_In (c : cell) (values : list cell) :
  isin c values = true <-> In c values.
Proof.
  unfold isin. rewrite existsb_exists. split.
  - intros (y & Hy & E). apply cell_eqb_eq in E. now subst.
  - intros H. exists c. split; [assumption | now apply cell_eqb_eq].
Qed.

Lemma any_in_spec (P x : list str) :
  any_in P x = true <-> exists p, In p P /\ In p x.
Proof.
  unfold any_in. rewrite existsb_exists.
  split; intros (p & H1 & H2); exists p; split; auto; now apply mem_In.
Qed.

Lemma all_in_spec (U x : list str) :
  all_in U x = true <-> forall p, In p U -> In p x.
Proof.
  unfold all_in. rewrite forallb_forall.
  split; intros H p Hp; apply mem_In; auto.
Qed.

Lemma unique_from_In (c : cell) (l seen : list cell) :
  In c (unique_from seen l) <-> In c l /\ ~ In c seen.
Proof.
  revert seen. induction l as [|d l IH]; intros seen; simpl; [tauto|].
  destruct (isin d seen) eqn:E.
  - rewrite IH. apply isin_In in E. split.
    + tauto.
    + intros [[-> | H] Hn]; tauto.
  - assert (Hd : ~ In d seen).
    { intros H. apply isin_In in H. congruence. }
    simpl. rewrite IH. simpl. split.
    + intros [-> | [H Hn]]; [tauto|]. split; [tauto|]. intros H'. apply Hn. tauto.
    + intros [[-> | H] Hn]; [tauto|].
      destruct (cell_eqb d c) eqn:Ec.
      * apply cell_eqb_eq in Ec. tauto.
      * right. split; [assumption|]. intros [-> | H']; [|tauto].
        assert (cell_eqb c c = true) by now apply cell_eqb_eq. congruence.
Qed.

Lemma unique_In (c : cell) (l : list cell) : In c (unique l) <-> In c l.
Proof. unfold unique. rewrite unique_from_In. simpl. tauto. Qed.

Lemma filter_all {A : Type} (f : A -> bool) (l : list A) :
  (forall x, In x l -> f x = true) -> filter f l = l.
Proof.
  induction l as [|a l IH]; simpl; intros H; [reflexivity|].
  rewrite (H a) by now left. f_equal. apply IH. intros x Hx. apply H. now right.
Qed.

Lemma filter_none {A : Type} (f : A -> bool) (l : list A) :
  (forall x, In x l -> f x = false) -> filter f l = [].
Proof.
  induction l as [|a l IH]; simpl; intros H; [reflexivity|].
  rewrite (H a) by now left. apply IH. intros x Hx. apply H. now right.
Qed.

(** ** The two filters *)





(** ** The source frame is only read *)


Lemma subseq_trans {A : Type} (l1 l2 l3 : list A) :
  subseq l1 l2 -> subseq l2 l3 -> subseq l1 l3.
Proof.
  intros H12 H23. revert l1 H12.
  induction H23 as [|x l2 l3 _ IH|x l2 l3 _ IH]; intros l1 H12.
  - exact H12.
  - constructor. now apply IH.
  - inversion H12; subst; constructor; now apply IH.
Qed.




Lemma has_select (label : str) (mask : row value -> bool) (df : DataFrame) :
  has label (select mask df) = has label df.
Proof. reflexivity. Qed.




(** ** Users holding every privilege but one *)

Lemma all_privileges_In (p : str) (df : DataFrame) :
  In p (all_privileges df) <->
  exists r, In r (rows df) /\ In p (liste_at col_privileges r).
Proof.
  unfold all_privileges. rewrite in_concat. split.
  - intros (l & Hl & Hp). apply in_map_iff in Hl as (r & <- & Hr). eauto.
  - intros (r & Hr & Hp). exists (liste_at col_privileges r).
    split; [now apply in_map | assumption].
Qed.

Lemma tous_privileges_sauf_In (p excluded : str) (df : DataFrame) :
  In p (tous_privileges_sauf excluded df) <->
  In p (all_privileges df) /\ p <> excluded.
Proof.
  unfold tous_privileges_sauf. split.
  - intros H. apply in_remove in H as [H Hne]. now rewrite nodup_In in H.
  - intros [H Hne]. apply in_in_remove; [assumption | now rewrite nodup_In].
Qed.

Example exemple_df_privileges :
  map (liste_at col_privileges) (rows exemple_df)
  = [[theses_hdr; gestion]; [gestion; inscription]; [gestion]].
Proof. reflexivity. Qed.

(** C4. [users_tous_sauf]: the universe is every privilege seen in the
    whole loaded frame [df] but the excluded one, and the rows kept are
    exactly those of the filtered frame whose own privileges hold every
    privilege of that universe.  With [theses_hdr], [gestion] and
    [inscription] seen and [theses_hdr] excluded, the user holding
    [gestion] and [inscription] is kept and the user holding [gestion]
    alone is not. *)
Theorem users_tous_sauf_correct (excluded : str) (df df_filtre : DataFrame) :
  has col_privileges df = true ->
  has col_privileges df_filtre = true ->
  let universe := tous_privileges_sauf excluded df in
  (exists d, users_tous_sauf excluded df df_filtre = Some d
     /\ columns d = columns df_filtre
     /\ rows d = filter (fun r => all_in universe (liste_at col_privileges r))
                        (rows df_filtre))
  /\ (forall p, In p universe <->
        (exists r, In r (rows df) /\ In p (liste_at col_privileges r))
        /\ p <> excluded)
  /\ (forall x, all_in universe x = true <-> forall p, In p universe -> In p x)
  /\ (forall df0,
        (forall p, In p (all_privileges df0) <->
                   p = theses_hdr \/ p = gestion \/ p = inscription) ->
        all_in (tous_privileges_sauf theses_hdr df0) [gestion; inscription] = true
        /\ all_in (tous_privileges_sauf theses_hdr df0) [gestion] = false)
  /\ option_map (fun d => map (liste_at col_privileges) (rows d))
        (users_tous_sauf_theses exemple_df exemple_df)
      = Some [[gestion; inscription]].
Proof.
  intros H1 H2 universe. split; [|split; [|split; [|split]]].
  - unfold users_tous_sauf. rewrite H1, H2. simpl.
    eexists. split; [reflexivity|]. split; reflexivity.
  - intros p. unfold universe. rewrite tous_privileges_sauf_In.
    now rewrite all_privileges_In.
  - intros x. apply all_in_spec.
  - intros df0 Hu. split.
    + apply all_in_spec. intros p Hp.
      apply tous_privileges_sauf_In in Hp as [Hp Hne]. apply Hu in Hp.
      simpl. destruct Hp as [-> | [-> | ->]]; [congruence | auto | auto].
    + apply not_true_is_false. intros Hall.
      assert (Hi : In inscription (tous_privileges_sauf theses_hdr df0)).
      { apply tous_privileges_sauf_In. split; [apply Hu; auto | discriminate]. }
      pose proof (proj1 (all_in_spec _ _) Hall inscription Hi) as Hin.
      simpl in Hin. destruct Hin as [E | []]. discriminate E.
  - vm_compute. reflexivity.
Qed.

Lemma users_tous_sauf_correct_witness :
  has col_privileges exemple_df = true
  /\ exists d, users_tous_sauf theses_hdr exemple_df exemple_df = Some d
       /\ columns d = columns exemple_df.
Proof.
  split; [reflexivity|].
  destruct (users_tous_sauf_correct theses_hdr exemple_df exemple_df
              eq_refl eq_refl) as ((d & Hd & Hc & _) & _).
  exists d. split; assumption.
Defined.

(** C10. [users_tous_sauf] never looks for the excluded privilege in a
    row: a row of the filtered frame holding every privilege of the
    reduced universe is kept, also when it holds the excluded privilege;
    and when the excluded privilege is the only one seen in the loaded
    frame, the reduced universe is empty and every row of the filtered
    frame is kept. *)
Theorem users_tous_sauf_excluded_ignored (excluded : str) (df df_filtre : DataFrame) :
  has col_privileges df = true ->
  has col_privileges df_filtre = true ->
  exists d, users_tous_sauf excluded df df_filtre = Some d
    /\ (forall r, In r (rows df_filtre) ->
          In excluded (liste_at col_privileges r) ->
          (forall p, In p (tous_privileges_sauf excluded df) ->
                     In p (liste_at col_privileges r)) ->
          In r (rows d))
    /\ (forall r, In r (rows df_filtre) ->
          (forall p, In p (tous_privileges_sauf excluded df) ->
                     In p (liste_at col_privileges r)) ->
          In r (rows d))
    /\ ((forall p, In p (all_privileges df) -> p = excluded) ->
        tous_privileges_sauf excluded df = [] /\ d = df_filtre).
Proof.
  intros H1 H2. unfold users_tous_sauf. rewrite H1, H2. simpl.
  eexists. split; [reflexivity|].
  assert (Hkeep : forall r, In r (rows df_filtre) ->
            (forall p, In p (tous_privileges_sauf excluded df) ->
                       In p (liste_at col_privileges r)) ->
            In r (rows (select (fun r => all_in (tous_privileges_sauf excluded df)
                                           (liste_at col_privileges r)) df_filtre))).
  { intros r Hr Hall. simpl. apply filter_In. split; [assumption|].
    now apply all_in_spec. }
  split; [|split].
  - intros r Hr _. now apply Hkeep.
  - exact Hkeep.
  - intros Honly.
    assert (E : tous_privileges_sauf excluded df = []).
    { destruct (tous_privileges_sauf excluded df) as [|p l] eqn:E; [reflexivity|].
      assert (Hp : In p (tous_privileges_sauf excluded df)) by (rewrite E; now left).
      apply tous_privileges_sauf_In in Hp as [Hp Hne]. now apply Honly in Hp. }
    split; [exact E|]. rewrite E. destruct df_filtre as [cols rs].
    unfold select. simpl. f_equal. now apply filter_all.
Qed.

Lemma users_tous_sauf_excluded_ignored_witness :
  let d0 := select (fun r => mem theses_hdr (liste_at col_privileges r))
                   exemple_df in
  has col_privileges d0 = true
  /\ exists d, users_tous_sauf theses_hdr d0 d0 = Some d
       /\ exists r, In r (rows d)
            /\ liste_at col_privileges r = [theses_hdr; gestion].
Proof.
  intros d0. split; [reflexivity|].
  destruct (users_tous_sauf_excluded_ignored theses_hdr d0 d0 eq_refl eq_refl)
    as (d & Hd & Hkeep & _).
  exists d. split; [exact Hd|].
  destruct (nth_error (rows d0) 0) as [r|] eqn:E; [|discriminate E].
  exists r. injection E as <-. split; [|reflexivity].
  apply Hkeep.
  - left. reflexivity.
  - left. reflexivity.
  - apply (proj1 (all_in_spec _ _)). vm_compute. reflexivity.
Defined.

(** ** Counting *)

Lemma first_index_app (k : str) (l l' : list str) :
  first_index k (l ++ l')
  = if mem k l then first_index k l else length l + first_index k l'.
Proof.
  induction l as [|x l IH]; simpl; [reflexivity|].
  destruct (PyStr.eqb k x); simpl; [reflexivity|].
  rewrite IH. now destruct (mem k l).
Qed.

Lemma first_index_lt (k : str) (l : list str) :
  In k l -> first_index k l < length l.
Proof.
  induction l as [|x l IH]; simpl; [tauto|].
  intros H. destruct (PyStr.eqb k x) eqn:E; [lia|].
  apply eqb_neq in E. destruct H as [H | H]; [congruence|].
  apply IH in H. lia.
Qed.

Lemma firsts_snoc (l : list str) (x : str) :
  firsts (l ++ [x]) = if mem x (firsts l) then firsts l else firsts l ++ [x].
Proof. unfold firsts. now rewrite fold_left_app. Qed.

Lemma firsts_In (k : str) (l : list str) : In k (firsts l) <-> In k l.
Proof.
  revert k. induction l as [|x l IH] using rev_ind; intros k; [simpl; tauto|].
  rewrite firsts_snoc, in_app_iff. simpl.
  destruct (mem x (firsts l)) eqn:E.
  - apply mem_In, IH in E. rewrite IH. split; [tauto|].
    intros [H | [<- | []]]; assumption.
  - rewrite in_app_iff, IH. simpl. tauto.
Qed.

Lemma firsts_NoDup (l : list str) : NoDup (firsts l).
Proof.
  induction l as [|x l IH] using rev_ind; [constructor|].
  rewrite firsts_snoc. destruct (mem x (firsts l)) eqn:E; [assumption|].
  apply NoDup_app; [assumption | repeat constructor; simpl; tauto |].
  intros k Hk [<- | []]. apply mem_In in Hk. congruence.
Qed.

Lemma StronglySorted_impl_in {A : Type} (R R' : A -> A -> Prop) (t : list A) :
  (forall a b, In a t -> In b t -> R a b -> R' a b) ->
  StronglySorted R t -> StronglySorted R' t.
Proof.
  induction t as [|x t IH]; intros H Hs; [constructor|].
  apply StronglySorted_inv in Hs as [Hs Hx]. constructor.
  - apply IH; [|assumption]. intros a b Ha Hb. apply H; now right.
  - rewrite Forall_forall in *. intros b Hb.
    apply H; [now left | now right | now apply Hx].
Qed.

Lemma StronglySorted_snoc {A : Type} (R : A -> A -> Prop) (t : list A) (x : A) :
  StronglySorted R t -> Forall (fun a => R a x) t -> StronglySorted R (t ++ [x]).
Proof.
  induction t as [|a t IH]; simpl; intros Hs Hx.
  - repeat constructor.
  - apply StronglySorted_inv in Hs as [Hs Ha].
    apply Forall_cons_iff in Hx as [Hax Hx]. constructor; [now apply IH|].
    apply Forall_app. split; [assumption | now repeat constructor].
Qed.

Lemma firsts_sorted (l : list str) :
  StronglySorted (fun a b => first_index a l < first_index b l) (firsts l).
Proof.
  induction l as [|x l IH] using rev_ind; [constructor|].
  assert (Hold : StronglySorted
            (fun a b => first_index a (l ++ [x]) < first_index b (l ++ [x]))
            (firsts l)).
  { revert IH. apply StronglySorted_impl_in. intros a b Ha Hb.
    apply (proj1 (firsts_In _ _)), (proj2 (mem_In _ _)) in Ha.
    apply (proj1 (firsts_In _ _)), (proj2 (mem_In _ _)) in Hb.
    now rewrite !first_index_app, Ha, Hb. }
  rewrite firsts_snoc. destruct (mem x (firsts l)) eqn:E; [assumption|].
  apply StronglySorted_snoc; [assumption|].
  apply Forall_forall. intros a Ha. apply (proj1 (firsts_In _ _)) in Ha.
  assert (Hx : mem x l = false).
  { apply not_true_is_false. intros H.
    apply (proj1 (mem_In _ _)), (proj2 (firsts_In _ _)), (proj2 (mem_In _ _)) in H.
    congruence. }
  rewrite !first_index_app, Hx. pose proof (first_index_lt a l Ha) as Hlt.
  apply (proj2 (mem_In _ _)) in Ha. rewrite Ha. lia.
Qed.

Lemma incr_map (x : str) (f : str -> nat) (K : list str) :
  NoDup K -> (~ In x K -> f x = 0) ->
  incr x (map (fun k => (k, f k)) K)
  = map (fun k => (k, if PyStr.eqb k x then S (f k) else f k))
        (if mem x K then K else K ++ [x]).
Proof.
  induction K as [|k K IH]; intros Hnd H0; simpl.
  - rewrite eqb_refl, H0 by tauto. reflexivity.
  - apply NoDup_cons_iff in Hnd as [Hk Hnd].
    destruct (PyStr.eqb x k) eqn:E.
    + apply eqb_eq in E. subst k. simpl. rewrite eqb_refl. f_equal.
      apply map_ext_in. intros a Ha.
      destruct (PyStr.eqb a x) eqn:Ea; [|reflexivity].
      apply eqb_eq in Ea. congruence.
    + transitivity
        ((k, f k) :: map (fun k0 => (k0, if PyStr.eqb k0 x then S (f k0) else f k0))
                         (if mem x K then K else K ++ [x])).
      * f_equal. apply IH; [assumption|]. intros Hx. apply H0.
        apply eqb_neq in E. simpl. intros [H | H]; [congruence | tauto].
      * assert (Ek : PyStr.eqb k x = false).
        { apply eqb_neq. apply eqb_neq in E. congruence. }
        unfold mem. destruct (existsb (PyStr.eqb x) K); simpl; now rewrite Ek.
Qed.

Lemma count_table_snoc (l : list str) (x : str) :
  count_table (l ++ [x]) = incr x (count_table l).
Proof. unfold count_table. now rewrite fold_left_app. Qed.

Lemma occurrences_0 (l : list str) (k : str) : ~ In k l -> occurrences l k = 0.
Proof. intros H. unfold occurrences. now apply count_occ_not_In. Qed.

Lemma occurrences_snoc (l : list str) (x k : str) :
  occurrences (l ++ [x]) k
  = if PyStr.eqb k x then S (occurrences l k) else occurrences l k.
Proof.
  unfold occurrences. rewrite count_occ_app. simpl.
  destruct (str_eq_dec x k) as [-> | Hne].
  - rewrite eqb_refl. lia.
  - assert (E : PyStr.eqb k x = false) by (apply eqb_neq; congruence).
    rewrite E. lia.
Qed.

(** The table of counts in closed form. *)
Lemma count_table_closed (l : list str) :
  count_table l = map (fun k => (k, occurrences l k)) (firsts l).
Proof.
  induction l as [|x l IH] using rev_ind; [reflexivity|].
  rewrite count_table_snoc, IH, firsts_snoc.
  rewrite incr_map.
  - apply map_ext. intros k. now rewrite occurrences_snoc.
  - apply firsts_NoDup.
  - intros H. apply occurrences_0. now rewrite <- firsts_In.
Qed.

Section SortDesc.
Variable pos : str -> nat.

Lemma insert_desc_perm (x : str * nat) (s : list (str * nat)) :
  Permutation (insert_desc x s) (x :: s).
Proof.
  induction s as [|y s IH]; simpl; [reflexivity|].
  destruct (snd y <=? snd x); [reflexivity|].
  rewrite IH. apply perm_swap.
Qed.

Lemma sort_desc_perm (t : list (str * nat)) : Permutation (sort_desc t) t.
Proof.
  induction t as [|x t IH]; simpl; [reflexivity|].
  rewrite insert_desc_perm. now constructor.
Qed.

(** Inserting a key that comes before every key of a ranked list keeps
    the list ranked: the new entry goes in front of the entries of
    equal count. *)
Lemma insert_desc_sorted (x : str * nat) (s : list (str * nat)) :
  StronglySorted (before pos) s ->
  Forall (fun y => pos (fst x) < pos (fst y)) s ->
  StronglySorted (before pos) (insert_desc x s).
Proof.
  induction s as [|y s IH]; simpl; intros Hs Hx.
  - repeat constructor.
  - apply StronglySorted_inv in Hs as [Hs Hy].
    apply Forall_cons_iff in Hx as [Hxy Hx].
    destruct (snd y <=? snd x) eqn:E.
    + apply Nat.leb_le in E. constructor; [now constructor|].
      constructor.
      * unfold before. lia.
      * rewrite Forall_forall in *. intros z Hz.
        specialize (Hy z Hz). specialize (Hx z Hz). unfold before in *. lia.
    + apply Nat.leb_gt in E. constructor; [now apply IH|].
      apply Forall_forall. intros z Hz.
      apply (Permutation_in _ (insert_desc_perm x s)) in Hz.
      destruct Hz as [<- | Hz].
      * unfold before. lia.
      * rewrite Forall_forall in Hy. now apply Hy.
Qed.

Lemma sort_desc_sorted (t : list (str * nat)) :
  StronglySorted (fun a b => pos (fst a) < pos (fst b)) t ->
  StronglySorted (before pos) (sort_desc t).
Proof.
  induction t as [|x t IH]; simpl; intros Hs; [constructor|].
  apply StronglySorted_inv in Hs as [Hs Hx].
  apply insert_desc_sorted; [now apply IH|].
  rewrite Forall_forall in *. intros y Hy. apply Hx.
  now apply (Permutation_in _ (sort_desc_perm t)).
Qed.
End SortDesc.

Lemma list_sum_perm (a b : list nat) :
  Permutation a b -> list_sum a = list_sum b.
Proof. induction 1; simpl; lia. Qed.

Lemma incr_sum (x : str) (t : list (str * nat)) :
  list_sum (map snd (incr x t)) = S (list_sum (map snd t)).
Proof.
  induction t as [|[k n] t IH]; simpl; [reflexivity|].
  destruct (PyStr.eqb x k); simpl; [reflexivity|]. rewrite IH. lia.
Qed.

Lemma count_table_sum (l : list str) :
  list_sum (map snd (count_table l)) = length l.
Proof.
  induction l as [|x l IH] using rev_ind; [reflexivity|].
  rewrite count_table_snoc, incr_sum, IH, length_app. simpl. lia.
Qed.

Lemma sorted_keys (R : str -> str -> Prop) (f : str -> nat) (K : list str) :
  StronglySorted R K ->
  StronglySorted (fun a b : str * nat => R (fst a) (fst b))
                 (map (fun k => (k, f k)) K).
Proof.
  induction 1 as [|k K _ IH Hk]; simpl; constructor; [assumption|].
  apply Forall_map. simpl. exact Hk.
Qed.

(** [value_counts]: one entry per distinct element, holding its number
    of occurrences; the counts add up to the length of the series; the
    entries are ranked by descending count, equal counts in order of
    first appearance. *)
Lemma value_counts_spec (l : list str) :
  NoDup (map fst (value_counts l))
  /\ (forall k n, In (k, n) (value_counts l) <-> In k l /\ n = occurrences l k)
  /\ list_sum (map snd (value_counts l)) = length l
  /\ StronglySorted (before (fun k => first_index k l)) (value_counts l).
Proof.
  unfold value_counts.
  pose proof (sort_desc_perm (count_table l)) as Hp.
  split; [|split; [|split]].
  - apply (Permutation_NoDup (l := map fst (count_table l))).
    + symmetry. now apply Permutation_map.
    + rewrite count_table_closed, map_map. simpl. rewrite map_id.
      apply firsts_NoDup.
  - intros k n. split.
    + intros H. apply (Permutation_in _ Hp) in H.
      rewrite count_table_closed in H. apply in_map_iff in H as (k' & [= -> <-] & Hk).
      split; [now apply firsts_In | reflexivity].
    + intros [Hk ->]. apply (Permutation_in _ (Permutation_sym Hp)).
      rewrite count_table_closed. apply in_map_iff. exists k.
      split; [reflexivity | now apply firsts_In].
  - rewrite (list_sum_perm _ (map snd (count_table l))).
    + apply count_table_sum.
    + now apply Permutation_map.
  - apply sort_desc_sorted. rewrite count_table_closed.
    apply (sorted_keys (fun a b => first_index a l < first_index b l)).
    apply firsts_sorted.
Qed.

(** ** Users per institution (line 92) *)

Lemma dropna_In (k : str) (cells : list cell) :
  In k (dropna cells) <-> In (Str k) cells.
Proof.
  unfold dropna. rewrite in_flat_map. split.
  - intros ([|s] & Hc & Hk); simpl in Hk; [tauto|].
    destruct Hk as [<- | []]. assumption.
  - intros H. exists (Str k). split; [assumption | now left].
Qed.

Lemma dropna_occurrences (k : str) (cells : list cell) :
  occurrences (dropna cells) k
  = length (filter (fun c => cell_eqb c (Str k)) cells).
Proof.
  unfold occurrences. induction cells as [|[|s] cells IH]; simpl;
    [reflexivity | exact IH |].
  destruct (str_eq_dec s k) as [-> | Hne].
  - rewrite eqb_refl. simpl. now f_equal.
  - assert (E : PyStr.eqb s k = false) by now apply eqb_neq.
    now rewrite E.
Qed.

Lemma dropna_length (cells : list cell) :
  length (dropna cells) = length (filter (fun c => negb (isna c)) cells).
Proof.
  induction cells as [|[|s] cells IH]; simpl; [reflexivity | exact IH |].
  now f_equal.
Qed.


Lemma filter_map_length {A B : Type} (f : B -> bool) (g : A -> B) (l : list A) :
  length (filter f (map g l)) = length (filter (fun x => f (g x)) l).
Proof.
  induction l as [|a l IH]; simpl; [reflexivity|].
  destruct (f (g a)); simpl; now rewrite IH.
Qed.




(** ** Most frequent privileges (lines 119-121) *)



(** ** Loading errors (lines 26-35) *)

Lemma mem_set_label (k label : str) (cols : list str) :
  mem k (set_label label cols) = PyStr.eqb k label || mem k cols.
Proof.
  unfold mem. induction cols as [|c cols IH]; simpl.
  - now rewrite orb_false_r.
  - destruct (PyStr.eqb label c) eqn:E; simpl.
    + apply eqb_eq in E. subst c.
      destruct (PyStr.eqb k label); reflexivity.
    + rewrite IH.
      destruct (PyStr.eqb k c), (PyStr.eqb k label); reflexivity.
Qed.






(** ** Export and reload (lines 218-223) *)

Example str_of_list_scenario :
  str_of_list [theses_hdr; gestion]
  = lit "['Th" ++ [e_acute] ++ lit "ses HDR', 'Gestion']".
Proof. reflexivity. Qed.


(** *** Rows as finite maps *)

Section RowFacts.
Context {A : Type}.

Lemma get_set_same (k : str) (v : A) (r : row A) : get k (set k v r) = Some v.
Proof.
  induction r as [|[k' w] r IH]; simpl.
  - now rewrite eqb_refl.
  - destruct (PyStr.eqb k k') eqn:E; simpl; rewrite E; [reflexivity | exact IH].
Qed.

Lemma get_set_other (k label : str) (v : A) (r : row A) :
  k <> label -> get k (set label v r) = get k r.
Proof.
  intros Hne. induction r as [|[k' w] r IH]; simpl.
  - apply eqb_neq in Hne. now rewrite Hne.
  - destruct (PyStr.eqb label k') eqn:E; simpl.
    + apply eqb_eq in E. subst k'. apply eqb_neq in Hne. now rewrite Hne.
    + now rewrite IH.
Qed.





Lemma get_map_row {B : Type} (f : A -> B) (k : str) (r : row A) :
  get k (map_row f r) = option_map f (get k r).
Proof.
  induction r as [|[k' w] r IH]; simpl; [reflexivity|].
  destruct (PyStr.eqb k k'); [reflexivity | exact IH].
Qed.



End RowFacts.




(** *** The loaded frame in closed form *)

Lemma combine_map_self {X Y Z : Type} (h : X * Y -> Z) (f : X -> Y) (l : list X) :
  map h (combine l (map f l)) = map (fun x => h (x, f x)) l.
Proof. induction l as [|x l IH]; simpl; [reflexivity | now rewrite IH]. Qed.

Lemma brut_getd (label : str) (r : row value) :
  brut (match get label r with Some v => v | None => Brut NaN end)
  = cell_at label r.
Proof. unfold cell_at. destruct (get label r) as [[c|l]|]; reflexivity. Qed.

Lemma apply_assign (label target : str) (df : DataFrame) :
  has label df = true ->
  exists vals, apply_nettoyer label df = Some vals
    /\ assign target vals df
       = mkTable (set_label target (columns df))
                 (map (fun r => set target
                                    (Liste (nettoyer_liste (cell_at label r))) r)
                      (rows df)).
Proof.
  intros H. unfold apply_nettoyer, column. unfold has in H. rewrite H.
  eexists. split; [reflexivity|]. unfold assign. f_equal.
  rewrite map_map.
  rewrite (combine_map_self (fun rv => set target (snd rv) (fst rv))).
  apply map_ext. intros r. simpl. now rewrite brut_getd.
Qed.

Lemma charger_donnees_Charge (t : Table str) :
  mem col_priv_apogee (columns t) = true ->
  mem col_centre_gestion (columns t) = true ->
  mem col_centre_traitement (columns t) = true ->
  charger_donnees (Contenu t)
  = Charge (mkTable (charger_colonnes (columns t))
                    (map (fun r => charger_ligne (map_row Brut (map_row read_cell r)))
                         (rows t))).
Proof.
  intros H1 H2 H3. unfold charger_donnees. cbn [read_csv]. cbv zeta.
  set (df0 := map_table Brut (map_table read_cell t)).
  assert (Hcols : forall k, has k df0 = mem k (columns t)) by reflexivity.
  destruct (apply_assign col_priv_apogee col_privileges df0) as (v1 & -> & ->);
    [now rewrite Hcols|].
  match goal with |- context [apply_nettoyer _ ?d] => set (df1 := d) end.
  destruct (apply_assign col_centre_gestion col_centres_gestion df1)
    as (v2 & -> & ->).
  { unfold df1, df0, has. simpl. rewrite mem_set_label, H2. apply orb_true_r. }
  match goal with |- context [apply_nettoyer _ ?d] => set (df2 := d) end.
  destruct (apply_assign col_centre_traitement col_centres_traitement df2)
    as (v3 & -> & ->).
  { unfold df2, df1, df0, has. simpl. rewrite !mem_set_label, H3.
    now rewrite !orb_true_r. }
  unfold df2, df1, df0, charger_colonnes, map_table. simpl.
  f_equal. f_equal. rewrite !map_map. reflexivity.
Qed.

(** *** Frames produced by loading and filtering *)

Ltac labels_differ :=
  let E := fresh "E" in intros E; vm_compute in E; discriminate E.

Lemma cell_at_set (k label : str) (v : value) (r : row value) :
  k <> label -> cell_at k (set label v r) = cell_at k r.
Proof. intros H. unfold cell_at. now rewrite get_set_other. Qed.

Lemma get_charger_ligne (k : str) (r : row value) :
  get k (charger_ligne r)
  = if PyStr.eqb k col_centres_traitement
    then Some (Liste (nettoyer_liste (cell_at col_centre_traitement r)))
    else if PyStr.eqb k col_centres_gestion
    then Some (Liste (nettoyer_liste (cell_at col_centre_gestion r)))
    else if PyStr.eqb k col_privileges
    then Some (Liste (nettoyer_liste (cell_at col_priv_apogee r)))
    else get k r.
Proof.
  unfold charger_ligne. cbv zeta.
  destruct (PyStr.eqb k col_centres_traitement) eqn:E3.
  - apply eqb_eq in E3. subst k. rewrite get_set_same.
    now rewrite !cell_at_set by labels_differ.
  - apply eqb_neq in E3. rewrite get_set_other by assumption.
    destruct (PyStr.eqb k col_centres_gestion) eqn:E2.
    + apply eqb_eq in E2. subst k. rewrite get_set_same.
      now rewrite !cell_at_set by labels_differ.
    + apply eqb_neq in E2. rewrite get_set_other by assumption.
      destruct (PyStr.eqb k col_privileges) eqn:E1.
      * apply eqb_eq in E1. subst k. now rewrite get_set_same.
      * apply eqb_neq in E1. now rewrite get_set_other.
Qed.






Lemma charger_colonnes_mem (k : str) (cols : list str) :
  mem k (charger_colonnes cols) = is_derived k || mem k cols.
Proof.
  unfold charger_colonnes, is_derived. rewrite !mem_set_label.
  destruct (PyStr.eqb k col_privileges), (PyStr.eqb k col_centres_gestion),
    (PyStr.eqb k col_centres_traitement); reflexivity.
Qed.

Lemma charger_donnees_Charge_inv (t : Table str) (df : DataFrame) :
  charger_donnees (Contenu t) = Charge df ->
  mem col_priv_apogee (columns t) = true
  /\ mem col_centre_gestion (columns t) = true
  /\ mem col_centre_traitement (columns t) = true.
Proof.
  intros H.
  destruct (mem col_priv_apogee (columns t)) eqn:H1;
    [|exfalso; revert H; unfold charger_donnees, apply_nettoyer, column;
      simpl; now rewrite H1].
  destruct (mem col_centre_gestion (columns t)) eqn:H2.
  2:{ exfalso. revert H. unfold charger_donnees, apply_nettoyer, column.
      simpl. rewrite H1, mem_set_label, H2. discriminate. }
  destruct (mem col_centre_traitement (columns t)) eqn:H3; [tauto|].
  exfalso. revert H. unfold charger_donnees, apply_nettoyer, column.
  simpl. rewrite H1, mem_set_label, H2. simpl.
  rewrite !mem_set_label, H3. discriminate.
Qed.




(** *** Reloading an export *)

Lemma map_id_in {X : Type} (f : X -> X) (l : list X) :
  (forall x, In x l -> f x = x) -> map f l = l.
Proof.
  intros H. rewrite <- (map_id l) at 2. now apply map_ext_in.
Qed.










(** * Further properties of the script *)

(** ** Composition of the filters *)

Lemma filter_comm {X : Type} (f g : X -> bool) (l : list X) :
  filter f (filter g l) = filter g (filter f l).
Proof.
  induction l as [|x l IH]; simpl; [reflexivity|].
  destruct (f x) eqn:Ef, (g x) eqn:Eg; simpl; rewrite ?Ef, ?Eg, IH; reflexivity.
Qed.


Lemma subseq_filter_impl {X : Type} (f g : X -> bool) (l : list X) :
  (forall x, In x l -> f x = true -> g x = true) ->
  subseq (filter f l) (filter g l).
Proof.
  induction l as [|x l IH]; simpl; intros H; [constructor|].
  assert (IH' : subseq (filter f l) (filter g l)).
  { apply IH. intros y Hy. apply H. now right. }
  destruct (f x) eqn:Ef.
  - rewrite (H x (or_introl eq_refl) Ef). now constructor.
  - destruct (g x); [now constructor | assumption].
Qed.

Lemma appliquer_filtres_rows (E : list cell) (P : list str) (df : DataFrame) (e : etat) :
  appliquer_filtres E P df = Some e ->
  e = mkEtat df (mkTable (columns df)
                   (filter (masque_privileges P)
                      (filter (masque_etablissements E) (rows df)))).
Proof.
  unfold appliquer_filtres, filtrer_etablissements.
  destruct (has col_etab df); [|discriminate].
  unfold filtrer_privileges. destruct P as [|p P].
  - intros [= <-]. unfold select. simpl. do 2 f_equal.
    symmetry. now apply filter_all.
  - match goal with |- context [if ?b then _ else _] => destruct b end;
      [|discriminate].
    intros [= <-]. reflexivity.
Qed.

Lemma appliquer_filtres_total (E : list cell) (P : list str) (df : DataFrame) :
  has col_etab df = true ->
  (P = [] \/ has col_privileges df = true) ->
  exists e, appliquer_filtres E P df = Some e.
Proof.
  intros He Hp. unfold appliquer_filtres, filtrer_etablissements. rewrite He.
  unfold filtrer_privileges. destruct P as [|p P]; [eexists; reflexivity|].
  destruct Hp as [Hp | Hp]; [discriminate|].
  rewrite has_select, Hp. eexists. reflexivity.
Qed.


(** With the selections that the sidebar makes by default (every
    institution of the frame, no privilege) the filtered frame is the
    loaded frame. *)
Theorem appliquer_filtres_defaut (df : DataFrame) :
  has col_etab df = true ->
  appliquer_filtres (all_etablissements df) [] df = Some (mkEtat df df).
Proof.
  intros H. unfold appliquer_filtres, filtrer_etablissements. rewrite H.
  simpl. f_equal. f_equal. destruct df as [cols rs]. unfold select. simpl.
  f_equal. apply filter_all. intros r Hr. apply isin_In.
  unfold all_etablissements. simpl. apply unique_In. now apply in_map.
Qed.

Lemma appliquer_filtres_defaut_witness :
  has col_etab exemple_df = true
  /\ appliquer_filtres (all_etablissements exemple_df) [] exemple_df
     = Some (mkEtat exemple_df exemple_df).
Proof.
  split; [reflexivity|]. apply (appliquer_filtres_defaut exemple_df). reflexivity.
Defined.



(** Selecting more never hides a user, with one exception.  A larger
    selection of institutions, or a larger selection of privileges when
    one was already selected, keeps every row that was shown.  The empty
    selection of privileges shows at least the rows of any other
    selection. *)
Theorem filtres_croissants (E E' : list cell) (P P' : list str)
  (df : DataFrame) (e e' : etat) :
  incl E E' -> incl P P' -> (P = [] -> P' = []) ->
  appliquer_filtres E P df = Some e ->
  appliquer_filtres E' P' df = Some e' ->
  subseq (rows (v_df_filtre e)) (rows (v_df_filtre e'))
  /\ (forall e0, appliquer_filtres E' [] df = Some e0 ->
        subseq (rows (v_df_filtre e')) (rows (v_df_filtre e0))).
Proof.
  intros HE HP Hvide H H'.
  apply appliquer_filtres_rows in H. apply appliquer_filtres_rows in H'.
  subst e e'. cbn [v_df_filtre rows].
  assert (Hmono : forall Q,
            subseq (filter Q (filter (masque_etablissements E) (rows df)))
                   (filter Q (filter (masque_etablissements E') (rows df)))).
  { intros Q. rewrite !(filter_comm Q). apply subseq_filter_impl.
    intros r _ Hin. apply isin_In. apply HE. now apply isin_In. }
  split.
  - eapply subseq_trans; [|apply Hmono].
    apply subseq_filter_impl. intros r _.
    destruct P as [|p P].
    + now rewrite (Hvide eq_refl).
    + destruct P' as [|p' P']; [reflexivity|]. unfold masque_privileges.
      intros Hany. apply (proj1 (any_in_spec _ _)) in Hany as (q & Hq & Hin).
      apply (proj2 (any_in_spec _ _)). exists q.
      split; [now apply HP | assumption].
  - intros e0 H0. apply appliquer_filtres_rows in H0. subst e0.
    cbn [v_df_filtre rows]. apply subseq_filter_impl. reflexivity.
Qed.

Lemma filtres_croissants_witness :
  exists e e',
    appliquer_filtres [Str (lit "UniB")] [theses_hdr] exemple_df = Some e
    /\ appliquer_filtres [Str (lit "UniB"); Str (lit "UniA")]
         [theses_hdr; inscription] exemple_df = Some e'
    /\ subseq (rows (v_df_filtre e)) (rows (v_df_filtre e')).
Proof.
  eexists. eexists. split; [reflexivity|]. split; [reflexivity|].
  apply (filtres_croissants [Str (lit "UniB")] [Str (lit "UniB"); Str (lit "UniA")]
           [theses_hdr] [theses_hdr; inscription] exemple_df).
  - intros c [<- | []]. now left.
  - intros p [<- | []]. now left.
  - discriminate.
  - reflexivity.
  - reflexivity.
Defined.

(** ** Lists of special users under the filters *)



(** The universe of [users_tous_sauf] ignores the filters: the list
    computed on a filtered frame is the filtered list of the whole frame;
    and as soon as one privilege of the loaded frame, other than the
    excluded one, is held by no row of the filtered frame, the list is
    empty. *)
Theorem users_tous_sauf_sous_filtre (excluded : str) (df d : DataFrame)
  (mask : row value -> bool) :
  has col_privileges df = true ->
  has col_privileges d = true ->
  users_tous_sauf excluded df (select mask d)
  = option_map (select mask) (users_tous_sauf excluded df d)
  /\ (forall p, In p (all_privileges df) -> p <> excluded ->
        (forall r, In r (rows d) -> ~ In p (liste_at col_privileges r)) ->
        users_tous_sauf excluded df d = Some (mkTable (columns d) [])).
Proof.
  intros H1 H2. unfold users_tous_sauf. rewrite has_select, H1, H2. simpl.
  split.
  - unfold select. simpl. do 2 f_equal. apply filter_comm.
  - intros p Hp Hne Hnone. unfold select. do 2 f_equal.
    apply filter_none. intros r Hr. apply not_true_is_false. intros Hall.
    apply (Hnone r Hr). apply (proj1 (all_in_spec _ _) Hall).
    now apply tous_privileges_sauf_In.
Qed.

Lemma users_tous_sauf_sous_filtre_witness :
  has col_privileges exemple_df = true
  /\ users_tous_sauf theses_hdr exemple_df
       (select (fun r => isin (cell_at col_etab r) [Str (lit "UniB")]) exemple_df)
     = Some (mkTable (columns exemple_df) []).
Proof.
  split; [reflexivity|].
  apply (proj2 (users_tous_sauf_sous_filtre theses_hdr exemple_df
                  (select (fun r => isin (cell_at col_etab r) [Str (lit "UniB")])
                          exemple_df)
                  (fun _ => true) eq_refl eq_refl) inscription).
  - apply all_privileges_In. exists (nth 1 (rows exemple_df) []).
    split; [right; left; reflexivity | right; left; reflexivity].
  - discriminate.
  - intros r [<- | [<- | []]]; vm_compute;
      intros H; repeat (destruct H as [H | H]; [discriminate H|]); exact H.
Defined.

(** ** What loading keeps *)

Lemma set_label_append (label : str) (cols : list str) :
  mem label cols = false -> set_label label cols = cols ++ [label].
Proof.
  unfold mem. induction cols as [|c cols IH]; simpl; [reflexivity|].
  destruct (PyStr.eqb label c); simpl; [discriminate|].
  intros H. now rewrite IH.
Qed.

Lemma cell_at_lu (k : str) (r0 : row str) :
  cell_at k (map_row Brut (map_row read_cell r0)) = lire k r0.
Proof.
  unfold cell_at, lire. rewrite !get_map_row.
  destruct (get k r0); reflexivity.
Qed.

(** [charger_donnees] keeps the rows of the file, one for one and in
    their order.  In each row the fields of the file are as read, but
    under the three labels of the lists, where the row holds the parse of
    the corresponding raw field, whatever the file had there; the labels
    of the lists that the file lacks come after its columns. *)
Theorem charger_donnees_lignes (t : Table str) (df : DataFrame) :
  charger_donnees (Contenu t) = Charge df ->
  length (rows df) = length (rows t)
  /\ (forallb (fun k => negb (mem k (columns t)))
        [col_privileges; col_centres_gestion; col_centres_traitement] = true ->
      columns df = columns t
                   ++ [col_privileges; col_centres_gestion; col_centres_traitement])
  /\ (forall k, mem k (columns df) = is_derived k || mem k (columns t))
  /\ (forall i r0, nth_error (rows t) i = Some r0 ->
        exists r, nth_error (rows df) i = Some r
          /\ (forall k, is_derived k = false ->
                get k r = option_map (fun s => Brut (read_cell s)) (get k r0))
          /\ get col_privileges r
             = Some (Liste (nettoyer_liste (lire col_priv_apogee r0)))
          /\ get col_centres_gestion r
             = Some (Liste (nettoyer_liste (lire col_centre_gestion r0)))
          /\ get col_centres_traitement r
             = Some (Liste (nettoyer_liste (lire col_centre_traitement r0)))).
Proof.
  intros H. destruct (charger_donnees_Charge_inv t df H) as (H1 & H2 & H3).
  rewrite (charger_donnees_Charge t H1 H2 H3) in H. injection H as <-.
  cbn [rows columns]. split; [now rewrite length_map|]. split; [|split].
  - intros Hm. simpl in Hm.
    apply andb_prop in Hm as [M1 Hm]. apply andb_prop in Hm as [M2 Hm].
    apply andb_prop in Hm as [M3 _].
    apply negb_true_iff in M1, M2, M3.
    unfold charger_colonnes.
    rewrite (set_label_append col_privileges _ M1).
    rewrite (set_label_append col_centres_gestion).
    2:{ unfold mem in *. rewrite existsb_app, M2. reflexivity. }
    rewrite (set_label_append col_centres_traitement).
    2:{ unfold mem in *. rewrite !existsb_app, M3. reflexivity. }
    now rewrite <- !app_assoc.
  - intros k. apply charger_colonnes_mem.
  - intros i r0 Hi. rewrite nth_error_map, Hi. simpl.
    eexists. split; [reflexivity|]. rewrite !get_charger_ligne, !cell_at_lu.
    split; [|repeat split].
    intros k Hd. unfold is_derived in Hd.
    apply orb_false_iff in Hd as [Hd E3]. apply orb_false_iff in Hd as [E1 E2].
    rewrite get_charger_ligne, E1, E2, E3, !get_map_row.
    destruct (get k r0); reflexivity.
Qed.

Lemma charger_donnees_lignes_witness :
  charger_donnees (Contenu exemple_table) = Charge exemple_df
  /\ length (rows exemple_df) = 3
  /\ columns exemple_df
     = exemple_colonnes
       ++ [col_privileges; col_centres_gestion; col_centres_traitement].
Proof.
  split; [reflexivity|].
  destruct (charger_donnees_lignes exemple_table exemple_df eq_refl)
    as (Hlen & Hcols & _).
  split; [exact Hlen | apply Hcols; reflexivity].
Defined.

(** ** Clean texts *)

Lemma nosep_app_r (a b : str) : nosep (a ++ b) = true -> nosep b = true.
Proof.
  induction a as [|c a IH]; simpl; [auto|].
  intros H. apply andb_prop in H as [_ H]. now apply IH.
Qed.

Lemma nosep_app_l (a b : str) : nosep (a ++ b) = true -> nosep a = true.
Proof.
  induction a as [|c a IH]; simpl; [reflexivity|].
  intros H. apply andb_prop in H as [Hc H]. rewrite (IH H), andb_true_r.
  rewrite head_isspace_app in Hc. destruct a as [|d a'].
  - simpl. now rewrite andb_false_r.
  - exact Hc.
Qed.

Lemma split_spec_nosep (s : str) (pieces : list str) :
  split_spec s pieces -> Forall (fun p => nosep p = true) pieces.
Proof.
  induction 1; constructor; auto.
Qed.

Lemma nettoyer_liste_propre (c : cell) :
  Forall propre (nettoyer_liste c).
Proof.
  destruct c as [|s]; [constructor|].
  rewrite nettoyer_liste_Str. apply Forall_forall. intros e He.
  apply filter_In in He as [He Hne]. apply in_map_iff in He as (p & <- & Hp).
  pose proof (split_spec_nosep s _ (re_split_spec s)) as Hns.
  rewrite Forall_forall in Hns. specialize (Hns p Hp).
  destruct (strip_spec p) as (l & r & Heq & _ & _ & Hh & Ht).
  repeat split; try assumption.
  - intros E. rewrite E in Hne. discriminate.
  - rewrite Heq in Hns. apply nosep_app_r in Hns. now apply nosep_app_l in Hns.
Qed.

(** Every privilege and every centre of every row of a loaded frame is a
    clean text: not empty, without whitespace at either end, and without
    a comma followed by whitespace inside. *)
Theorem charger_donnees_propre (f : fichier) (df : DataFrame) :
  charger_donnees f = Charge df ->
  forall r k e, In r (rows df) -> is_derived k = true ->
                In e (liste_at k r) -> propre e.
Proof.
  intros H r k e Hr Hk He. destruct f as [|t]; [discriminate|].
  destruct (charger_donnees_Charge_inv t df H) as (H1 & H2 & H3).
  rewrite (charger_donnees_Charge t H1 H2 H3) in H. injection H as <-.
  simpl in Hr. apply in_map_iff in Hr as (r0 & <- & _).
  unfold liste_at in He. rewrite get_charger_ligne in He.
  unfold is_derived in Hk.
  destruct (PyStr.eqb k col_centres_traitement);
    [|destruct (PyStr.eqb k col_centres_gestion);
      [|destruct (PyStr.eqb k col_privileges); [|discriminate]]];
    revert e He; apply Forall_forall; apply nettoyer_liste_propre.
Qed.

Lemma charger_donnees_propre_witness :
  charger_donnees exemple_fichier = Charge exemple_df /\ propre theses_hdr.
Proof.
  split; [reflexivity|].
  apply (charger_donnees_propre exemple_fichier exemple_df eq_refl
           (nth 0 (rows exemple_df) []) col_privileges theses_hdr).
  - left. reflexivity.
  - reflexivity.
  - left. reflexivity.
Defined.

Lemma re_split_cut (a ws b : str) :
  nosep a = true -> ws <> [] -> forallb isspace ws = true ->
  head_isspace b = false ->
  re_split (a ++ comma :: ws ++ b) = a :: re_split b.
Proof.
  intros. unfold re_split. now rewrite split_go_cut.
Qed.

Lemma strip_propre (e : str) : propre e -> strip e = e.
Proof.
  intros (_ & Hh & Ht & _). apply trim_unique. exists [], [].
  rewrite app_nil_r. now repeat split.
Qed.

Lemma join_head (l : list str) :
  Forall propre l -> head_isspace (join (lit ", ") l) = false.
Proof.
  destruct 1 as [|e l (Hne & Hh & _) _]; [reflexivity|]. simpl.
  destruct l; [exact Hh|]. rewrite head_isspace_app.
  destruct e; [congruence | exact Hh].
Qed.

(** Parsing undoes joining: the cell made of clean texts joined by a
    comma and a blank parses to these texts; so the parser returns
    exactly the lists of clean texts, and joining then parsing again what
    it returned changes nothing. *)
Theorem nettoyer_liste_join (l : list str) :
  Forall propre l ->
  nettoyer_liste (Str (join (lit ", ") l)) = l
  /\ (forall c, nettoyer_liste (Str (join (lit ", ") (nettoyer_liste c)))
                = nettoyer_liste c).
Proof.
  assert (Hjoin : forall l0, Forall propre l0 ->
                    nettoyer_liste (Str (join (lit ", ") l0)) = l0).
  { induction 1 as [|e l0 He Hl IH]; [reflexivity|].
    pose proof He as (Hne & Hh & Ht & Hns).
    rewrite nettoyer_liste_Str. destruct l0 as [|e2 l0].
    - cbn [join]. rewrite (re_split_sound e [e]) by now constructor.
      simpl. rewrite (strip_propre e He). destruct e; [congruence | reflexivity].
    - change (join (lit ", ") (e :: e2 :: l0))
        with (e ++ comma :: [32%N] ++ join (lit ", ") (e2 :: l0)).
      rewrite re_split_cut;
        [|assumption | discriminate | reflexivity | now apply join_head].
      simpl map. rewrite (strip_propre e He). simpl filter.
      destruct e as [|c e]; [congruence|]. simpl truthy. cbv iota. f_equal.
      rewrite nettoyer_liste_Str in IH. exact IH. }
  intros H. split; [now apply Hjoin|].
  intros c. apply Hjoin. apply nettoyer_liste_propre.
Qed.

Lemma nettoyer_liste_join_witness :
  Forall propre [theses_hdr; gestion]
  /\ nettoyer_liste (Str (join (lit ", ") [theses_hdr; gestion]))
     = [theses_hdr; gestion].
Proof.
  assert (H : Forall propre [theses_hdr; gestion]).
  { repeat constructor; try discriminate. }
  split; [exact H|]. exact (proj1 (nettoyer_liste_join _ H)).
Defined.

(** ** Key figures (lines 74-77) *)

Lemma unique_from_NoDup (l seen : list cell) : NoDup (unique_from seen l).
Proof.
  revert seen. induction l as [|c l IH]; intros seen; simpl; [constructor|].
  destruct (isin c seen); [apply IH|]. constructor; [|apply IH].
  rewrite unique_from_In. simpl. tauto.
Qed.

Lemma dropna_NoDup (l : list cell) : NoDup l -> NoDup (dropna l).
Proof.
  induction 1 as [|c l Hc _ IH]; simpl; [constructor|].
  destruct c as [|s]; simpl; [exact IH|]. constructor; [|exact IH].
  now rewrite dropna_In.
Qed.

Lemma nunique_value_counts (cells : list cell) :
  nunique cells = length (value_counts (dropna cells)).
Proof.
  unfold nunique, value_counts. rewrite <- dropna_length.
  rewrite (Permutation_length (sort_desc_perm _)), count_table_closed, length_map.
  apply Permutation_length. apply NoDup_Permutation.
  - apply dropna_NoDup, unique_from_NoDup.
  - apply firsts_NoDup.
  - intros k. now rewrite dropna_In, unique_In, firsts_In, dropna_In.
Qed.

Lemma dropna_le (cells : list cell) : length (dropna cells) <= length cells.
Proof. rewrite dropna_length. apply filter_length_le. Qed.

(** The second key figure is the number of entries of the table of users
    per institution; it is at most the number of users, as is the number
    of users holding [theses_hdr]; and it is 0 exactly when no row has an
    institution. *)
Theorem indicateurs_cles_correct (d : DataFrame) :
  has col_etab d = true ->
  has col_privileges d = true ->
  exists i t,
    indicateurs_cles d = Some i
    /\ users_par_etab d = Some t
    /\ nb_utilisateurs i = length (rows d)
    /\ nb_etablissements i = length t
    /\ nb_etablissements i <= nb_utilisateurs i
    /\ nb_theses_hdr i <= nb_utilisateurs i
    /\ (nb_etablissements i = 0 <->
        forall r, In r (rows d) -> cell_at col_etab r = NaN).
Proof.
  intros He Hp. unfold indicateurs_cles, users_par_etab. rewrite He, Hp. simpl.
  eexists. eexists. split; [reflexivity|]. split; [reflexivity|]. simpl.
  set (cells := map (cell_at col_etab) (rows d)).
  split; [reflexivity|]. split; [apply nunique_value_counts|].
  assert (Hn : nunique cells = length (firsts (dropna cells))).
  { rewrite nunique_value_counts. unfold value_counts.
    now rewrite (Permutation_length (sort_desc_perm _)), count_table_closed,
      length_map. }
  split; [|split].
  - rewrite Hn. transitivity (length (dropna cells)).
    + apply NoDup_incl_length; [apply firsts_NoDup|].
      intros k. apply firsts_In.
    + rewrite dropna_le. unfold cells. now rewrite length_map.
  - apply filter_length_le.
  - rewrite Hn. split.
    + intros H0 r Hr. destruct (cell_at col_etab r) as [|s] eqn:E; [reflexivity|].
      assert (Hin : In s (firsts (dropna cells))).
      { apply firsts_In, dropna_In. rewrite <- E. unfold cells. now apply in_map. }
      destruct (firsts (dropna cells)); [destruct Hin | discriminate H0].
    + intros Hall. destruct (firsts (dropna cells)) as [|k ks] eqn:E;
        [reflexivity|].
      assert (Hin : In k (firsts (dropna cells))) by (rewrite E; now left).
      apply firsts_In, dropna_In in Hin. unfold cells in Hin.
      apply in_map_iff in Hin as (r & Hr & Hin). rewrite (Hall r Hin) in Hr.
      discriminate.
Qed.

Lemma indicateurs_cles_correct_witness :
  has col_etab exemple_df = true
  /\ has col_privileges exemple_df = true
  /\ indicateurs_cles exemple_df = Some (mkIndicateurs 3 2 1).
Proof.
  split; [reflexivity|]. split; [reflexivity|].
  destruct (indicateurs_cles_correct exemple_df eq_refl eq_refl)
    as (i & t & Hi & _).
  rewrite Hi. f_equal. injection Hi as <-. reflexivity.
Defined.

(** ** Occurrences and users (lines 76-77, 119-121 and 166) *)

Lemma occurrences_concat (L : list (list str)) (p : str) :
  occurrences (List.concat L) p = list_sum (map (fun l => occurrences l p) L).
Proof.
  unfold occurrences. induction L as [|l L IH]; simpl; [reflexivity|].
  now rewrite count_occ_app, IH.
Qed.

Lemma mem_occurrences (l : list str) (p : str) :
  (if mem p l then 1 else 0) <= occurrences l p
  /\ (NoDup l -> occurrences l p = if mem p l then 1 else 0).
Proof.
  unfold occurrences. destruct (mem p l) eqn:E.
  - apply mem_In in E. split.
    + now apply count_occ_In.
    + intros Hnd. now apply NoDup_count_occ'.
  - split; [lia|]. intros _. apply count_occ_not_In. intros H.
    apply mem_In in H. congruence.
Qed.

Lemma in_firstn {X : Type} (n : nat) (l : list X) (x : X) :
  In x (firstn n l) -> In x l.
Proof.
  intros H. rewrite <- (firstn_skipn n l). apply in_or_app. now left.
Qed.

(** The count of a privilege in the ranking is its number of
    occurrences: it is at least the number of users holding the
    privilege, and equal to it when no user has a privilege twice in the
    list. *)
Theorem top_privileges_users (n : nat) (d : DataFrame) (t : list (str * nat))
  (p : str) (c : nat) :
  top_privileges_n n d = Some t ->
  In (p, c) t ->
  exists users, users_with p d = Some users
    /\ 1 <= length (rows users) <= c
    /\ ((forall r, In r (rows d) -> NoDup (liste_at col_privileges r)) ->
        length (rows users) = c).
Proof.
  unfold top_privileges_n, users_with.
  destruct (has col_privileges d); [|discriminate].
  intros [= <-] Hin. apply in_firstn in Hin.
  apply (proj1 (proj1 (proj2 (value_counts_spec _)) p c)) in Hin as [Hp ->].
  eexists. split; [reflexivity|]. simpl.
  unfold all_privileges in *. rewrite occurrences_concat, map_map.
  assert (Hsum : forall rs,
            length (filter (fun r => mem p (liste_at col_privileges r)) rs)
            <= list_sum (map (fun r => occurrences (liste_at col_privileges r) p) rs)
            /\ ((forall r, In r rs -> NoDup (liste_at col_privileges r)) ->
                length (filter (fun r => mem p (liste_at col_privileges r)) rs)
                = list_sum (map (fun r => occurrences (liste_at col_privileges r) p)
                                rs))).
  { induction rs as [|r rs [IH1 IH2]]; simpl; [split; reflexivity|].
    destruct (mem_occurrences (liste_at col_privileges r) p) as [Hle Heq].
    split.
    - destruct (mem p (liste_at col_privileges r)); simpl; lia.
    - intros Hnd. rewrite (Heq (Hnd r (or_introl eq_refl))).
      rewrite <- IH2 by (intros r' Hr'; apply Hnd; now right).
      destruct (mem p (liste_at col_privileges r)); reflexivity. }
  destruct (Hsum (rows d)) as [Hle Heq]. split; [split; [|exact Hle] | exact Heq].
  apply in_concat in Hp as (l & Hl & Hp).
  apply in_map_iff in Hl as (r & <- & Hr).
  assert (Hf : In r (filter (fun r => mem p (liste_at col_privileges r)) (rows d))).
  { apply filter_In. split; [assumption | now apply mem_In]. }
  destruct (filter _ (rows d)); [destruct Hf | simpl; lia].
Qed.

Lemma top_privileges_users_witness :
  top_privileges_n 5 exemple_df
  = Some [(gestion, 3); (theses_hdr, 1); (inscription, 1)]
  /\ exists users, users_with gestion exemple_df = Some users
       /\ length (rows users) = 3.
Proof.
  split; [reflexivity|].
  destruct (top_privileges_users 5 exemple_df
              [(gestion, 3); (theses_hdr, 1); (inscription, 1)] gestion 3
              eq_refl (or_introl eq_refl)) as (users & Hu & _ & Heq).
  exists users. split; [exact Hu|]. apply Heq.
  intros r [<- | [<- | [<- | []]]]; vm_compute;
    repeat constructor; simpl; intuition discriminate.
Defined.

(** ** Options of the privilege selector (line 60) *)

Lemma ltb_irrefl (a : str) : PyStr.ltb a a = false.
Proof.
  induction a as [|x a IH]; simpl; [reflexivity|].
  now rewrite N.ltb_irrefl, N.eqb_refl, IH.
Qed.

Lemma ltb_trans (a b c : str) :
  PyStr.ltb a b = true -> PyStr.ltb b c = true -> PyStr.ltb a c = true.
Proof.
  revert b c. induction a as [|x a IH]; intros [|y b] [|z c]; simpl;
    try discriminate; try reflexivity.
  intros H1 H2.
  apply orb_true_iff in H1 as [H1 | H1]; apply orb_true_iff in H2 as [H2 | H2];
    apply orb_true_iff.
  - left. apply N.ltb_lt in H1, H2. apply N.ltb_lt. lia.
  - apply andb_prop in H2 as [E _]. apply N.eqb_eq in E. subst. now left.
  - apply andb_prop in H1 as [E _]. apply N.eqb_eq in E. subst. now left.
  - apply andb_prop in H1 as [E1 H1]. apply andb_prop in H2 as [E2 H2].
    apply N.eqb_eq in E1, E2. subst. right.
    rewrite N.eqb_refl. simpl. eapply IH; eassumption.
Qed.

Lemma ltb_trichotomy (a b : str) :
  PyStr.ltb a b = false -> a <> b -> PyStr.ltb b a = true.
Proof.
  revert b. induction a as [|x a IH]; intros [|y b]; simpl;
    try discriminate; try congruence; try reflexivity.
  intros H Hne. apply orb_false_iff in H as [H1 H2].
  apply N.ltb_ge in H1. apply orb_true_iff.
  destruct (N.eqb y x) eqn:E.
  - apply N.eqb_eq in E. subst y. rewrite N.eqb_refl in H2. simpl in H2.
    right. simpl. apply IH; [assumption | congruence].
  - left. apply N.eqb_neq in E. apply N.ltb_lt. lia.
Qed.

Lemma insert_str_perm (x : str) (l : list str) :
  Permutation (insert_str x l) (x :: l).
Proof.
  induction l as [|y l IH]; simpl; [reflexivity|].
  destruct (PyStr.ltb y x); [|reflexivity].
  rewrite IH. apply perm_swap.
Qed.

Lemma sorted_perm (l : list str) : Permutation (sorted l) l.
Proof.
  induction l as [|x l IH]; simpl; [reflexivity|].
  rewrite insert_str_perm. now constructor.
Qed.

Lemma insert_str_sorted (x : str) (l : list str) :
  StronglySorted (fun a b => PyStr.ltb a b = true) l -> ~ In x l ->
  StronglySorted (fun a b => PyStr.ltb a b = true) (insert_str x l).
Proof.
  induction l as [|y l IH]; simpl; intros Hs Hx; [repeat constructor|].
  apply StronglySorted_inv in Hs as [Hs Hy].
  destruct (PyStr.ltb y x) eqn:E.
  - constructor; [apply IH; tauto|].
    apply Forall_forall. intros z Hz.
    apply (Permutation_in _ (insert_str_perm x l)) in Hz.
    destruct Hz as [<- | Hz]; [assumption|].
    rewrite Forall_forall in Hy. now apply Hy.
  - assert (Hxy : PyStr.ltb x y = true).
    { apply ltb_trichotomy; [assumption|]. intros ->. tauto. }
    constructor; [now constructor|]. constructor; [assumption|].
    rewrite Forall_forall in *. intros z Hz.
    apply (ltb_trans x y z); [assumption | now apply Hy].
Qed.

Lemma sorted_strict (l : list str) :
  NoDup l -> StronglySorted (fun a b => PyStr.ltb a b = true) (sorted l).
Proof.
  induction 1 as [|x l Hx _ IH]; simpl; [constructor|].
  apply insert_str_sorted; [assumption|].
  intros H. apply Hx. now apply (Permutation_in _ (sorted_perm l)).
Qed.

Lemma sorted_In (x : str) (l : list str) : In x (sorted l) <-> In x l.
Proof.
  split; intros H.
  - now apply (Permutation_in _ (sorted_perm l)).
  - now apply (Permutation_in _ (Permutation_sym (sorted_perm l))).
Qed.

(** The privilege selector offers each privilege of the loaded frame
    once, in strictly ascending order.  Any selection made of these
    options, with every institution selected, shows at least one user. *)
Theorem options_privileges_correct (df : DataFrame) :
  has col_etab df = true ->
  has col_privileges df = true ->
  exists options, options_privileges df = Some options
    /\ StronglySorted (fun a b => PyStr.ltb a b = true) options
    /\ (forall p, In p options <->
          exists r, In r (rows df) /\ In p (liste_at col_privileges r))
    /\ (forall P, P <> [] -> incl P options ->
          exists e, appliquer_filtres (all_etablissements df) P df = Some e
            /\ rows (v_df_filtre e) <> []).
Proof.
  intros He Hp. unfold options_privileges. rewrite Hp.
  eexists. split; [reflexivity|].
  assert (Hin : forall p, In p (sorted (nodup str_eq_dec (all_privileges df))) <->
                  exists r, In r (rows df) /\ In p (liste_at col_privileges r)).
  { intros p. now rewrite sorted_In, nodup_In, all_privileges_In. }
  split; [apply sorted_strict, NoDup_nodup|]. split; [exact Hin|].
  intros P Hne Hincl.
  destruct (appliquer_filtres_total (all_etablissements df) P df He (or_intror Hp))
    as [e Hf].
  exists e. split; [exact Hf|]. apply appliquer_filtres_rows in Hf. subst e.
  cbn [v_df_filtre rows]. destruct P as [|p P]; [congruence|].
  destruct (proj1 (Hin p) (Hincl p (or_introl eq_refl))) as (r & Hr & Hpr).
  assert (Hk : In r (filter (masque_privileges (p :: P))
                       (filter (masque_etablissements (all_etablissements df))
                               (rows df)))).
  { apply filter_In. split.
    - apply filter_In. split; [assumption|]. apply isin_In.
      apply unique_In. now apply in_map.
    - apply (proj2 (any_in_spec _ _)). exists p. split; [now left | assumption]. }
  intros E. rewrite E in Hk. destruct Hk.
Qed.

Lemma options_privileges_correct_witness :
  has col_etab exemple_df = true
  /\ has col_privileges exemple_df = true
  /\ options_privileges exemple_df = Some [gestion; inscription; theses_hdr].
Proof.
  split; [reflexivity|]. split; [reflexivity|].
  destruct (options_privileges_correct exemple_df eq_refl eq_refl)
    as (options & Ho & _).
  rewrite Ho. f_equal. injection Ho as <-. reflexivity.
Defined.

(** ** The first list of the third tab (lines 166-175) *)

Lemma project_Some (labels : list str) (d : DataFrame) :
  forallb (fun k => has k d) labels = true ->
  project labels d
  = Some (mkTable labels
            (map (fun r => map (fun k => (k, getd k r)) labels) (rows d))).
Proof. intros H. unfold project. now rewrite H. Qed.

Lemma project_None (labels : list str) (d : DataFrame) :
  forallb (fun k => has k d) labels = false -> project labels d = None.
Proof. intros H. unfold project. now rewrite H. Qed.

(** The first list of the third tab shows the message instead of a table
    exactly when no user of the filtered frame holds [theses_hdr];
    otherwise it shows one row of three columns per such user.  A frame
    without the name column or without the institution column raises
    there, but only once such a user is in the filtered frame. *)
Theorem tab3_theses_hdr_correct (d : DataFrame) :
  has col_privileges d = true ->
  let users := filter (fun r => mem theses_hdr (liste_at col_privileges r))
                      (rows d) in
  (users = [] -> tab3_theses_hdr d = Some Aucun)
  /\ (users <> [] -> has col_nom d && has col_etab d = true ->
      tab3_theses_hdr d
      = Some (Tableau (mkTable colonnes_tab3
                         (map (fun r => map (fun k => (k, getd k r)) colonnes_tab3)
                              users))))
  /\ (users <> [] -> has col_nom d && has col_etab d = false ->
      tab3_theses_hdr d = None).
Proof.
  intros Hp users. unfold tab3_theses_hdr, users_theses_hdr, users_with.
  rewrite Hp. unfold afficher, empty, project, select, colonnes_tab3, has in *.
  cbn [rows columns forallb]. fold users.
  destruct (columns d) as [|c cs] eqn:Ec; [discriminate|].
  split; [|split].
  - intros ->. reflexivity.
  - intros Hne Hcols. destruct users as [|u us] eqn:E; [congruence|].
    cbn [negb]. apply andb_prop in Hcols as [H1 H2].
    now rewrite H1, H2, Hp.
  - intros Hne Hcols. destruct users as [|u us] eqn:E; [congruence|].
    cbn [negb]. apply andb_false_iff in Hcols as [H1 | H2].
    + now rewrite H1.
    + rewrite H2. now rewrite andb_false_r.
Qed.

Lemma tab3_theses_hdr_correct_witness :
  has col_privileges exemple_df = true
  /\ exists t, tab3_theses_hdr exemple_df = Some (Tableau t)
       /\ length (rows t) = 1.
Proof.
  split; [reflexivity|].
  destruct (tab3_theses_hdr_correct exemple_df eq_refl) as (_ & Hshow & _).
  eexists. split; [apply Hshow; [discriminate | reflexivity]|]. reflexivity.
Defined.

(** ** The fourth tab (lines 198-215) *)

Lemma insert_row_perm (label : str) (x : row value) (l : list (row value)) :
  Permutation (insert_row label x l) (x :: l).
Proof.
  induction l as [|y l IH]; simpl; [reflexivity|].
  destruct (cell_ltb (cell_at label y) (cell_at label x)); [|reflexivity].
  rewrite IH. apply perm_swap.
Qed.

Lemma sort_rows_perm (label : str) (l : list (row value)) :
  Permutation (fold_right (insert_row label) [] l) l.
Proof.
  induction l as [|x l IH]; simpl; [reflexivity|].
  rewrite insert_row_perm. now constructor.
Qed.

Lemma filter_perm {X : Type} (f : X -> bool) (l l' : list X) :
  Permutation l l' -> Permutation (filter f l) (filter f l').
Proof.
  induction 1 as [|x l l' _ IH|x y l|l l' l'' _ IH1 _ IH2]; simpl.
  - constructor.
  - destruct (f x); [now constructor | assumption].
  - destruct (f x), (f y); try reflexivity. apply perm_swap.
  - now transitivity (filter f l').
Qed.

Lemma map_option_map {X Y : Type} (f : X -> option Y) (g : X -> Y) (l : list X) :
  (forall x, In x l -> f x = Some (g x)) -> map_option f l = Some (map g l).
Proof.
  induction l as [|x l IH]; simpl; intros H; [reflexivity|].
  rewrite (H x (or_introl eq_refl)), IH; [reflexivity|].
  intros y Hy. apply H. now right.
Qed.

Lemma map_option_None {X Y : Type} (f : X -> option Y) (l : list X) (x : X) :
  In x l -> f x = None -> map_option f l = None.
Proof.
  induction l as [|y l IH]; simpl; intros Hin Hx; [destruct Hin|].
  destruct Hin as [-> | Hin]; [now rewrite Hx|].
  destruct (f y); [|reflexivity]. now rewrite (IH Hin Hx).
Qed.

Lemma sorted_cells_texts (l : list cell) :
  (forall c, In c l -> c <> NaN) ->
  sorted_cells l = Some (map Str (sorted (dropna l))).
Proof.
  intros H. unfold sorted_cells. destruct l as [|c l]; [reflexivity|].
  assert (Hc : isna c = false).
  { destruct c; [exfalso; now apply (H NaN (or_introl eq_refl)) | reflexivity]. }
  cbn [forallb existsb]. rewrite Hc. cbn [andb orb].
  destruct (existsb isna l) eqn:E; [|reflexivity].
  apply existsb_exists in E as (x & Hx & Ex). destruct x; [|discriminate].
  exfalso. apply (H NaN); [now right | reflexivity].
Qed.

Lemma sorted_NoDup (l : list str) : NoDup l -> NoDup (sorted l).
Proof.
  intros H. apply (Permutation_NoDup (Permutation_sym (sorted_perm l)) H).
Qed.

Lemma dropna_map_Str (K : list str) : dropna (map Str K) = K.
Proof. induction K as [|k K IH]; simpl; [reflexivity | now rewrite IH]. Qed.

Lemma cell_eq_Str (c : cell) (s : str) : cell_eq c (Str s) = cell_eqb c (Str s).
Proof. destruct c; reflexivity. Qed.

Lemma list_sum_map_perm {X : Type} (f : X -> nat) (a b : list X) :
  Permutation a b -> list_sum (map f a) = list_sum (map f b).
Proof. intros H. apply list_sum_perm. now apply Permutation_map. Qed.

(** The sizes of the groups of the distinct texts of a column add up to
    the number of rows that have a text there. *)
Lemma group_sizes_sum (cells : list cell) (K : list str) :
  NoDup K -> (forall s, In s K <-> In (Str s) cells) ->
  list_sum (map (fun s => length (filter (fun c => cell_eqb c (Str s)) cells)) K)
  = length (dropna cells).
Proof.
  intros Hnd Hin.
  rewrite <- (count_table_sum (dropna cells)), count_table_closed, map_map.
  cbn [snd]. rewrite (list_sum_map_perm _ K (firsts (dropna cells))).
  - f_equal. apply map_ext. intros s. symmetry. apply dropna_occurrences.
  - apply NoDup_Permutation; [assumption | apply firsts_NoDup|].
    intros s. now rewrite Hin, firsts_In, dropna_In.
Qed.

(** When every user of the filtered frame has an institution and the
    five columns shown exist, the fourth tab opens one expander per
    institution, in strictly ascending order of the names; the title of
    each gives the number of users of that institution, at least one,
    its table has one row per such user, and the numbers add up to the
    number of users of the filtered frame. *)
Theorem tab4_correct (d : DataFrame) :
  has col_etab d = true ->
  forallb (fun k => has k d) colonnes_tab4 = true ->
  (forall r, In r (rows d) -> cell_at col_etab r <> NaN) ->
  exists exps names,
    tab4 d = Some exps
    /\ map exp_etablissement exps = map Str names
    /\ StronglySorted (fun a b => PyStr.ltb a b = true) names
    /\ (forall s, In s names <->
          exists r, In r (rows d) /\ cell_at col_etab r = Str s)
    /\ Forall (fun x =>
                 exp_utilisateurs x
                 = length (filter (fun r => cell_eq (cell_at col_etab r)
                                              (exp_etablissement x)) (rows d))
                 /\ 1 <= exp_utilisateurs x
                 /\ length (rows (exp_table x)) = exp_utilisateurs x
                 /\ columns (exp_table x) = colonnes_tab4) exps
    /\ list_sum (map exp_utilisateurs exps) = length (rows d).
Proof.
  intros He Hcols Hna. unfold tab4, sort_values. rewrite He. cbn [rows].
  set (srs := fold_right (insert_row col_etab) [] (rows d)).
  set (dg := mkTable (columns d) srs).
  assert (Hperm : Permutation srs (rows d)) by apply sort_rows_perm.
  assert (Hna' : forall c, In c (unique (map (cell_at col_etab) srs)) -> c <> NaN).
  { intros c Hc. apply unique_In, in_map_iff in Hc as (r & <- & Hr).
    apply Hna. now apply (Permutation_in _ Hperm). }
  rewrite (sorted_cells_texts _ Hna').
  set (names := sorted (dropna (unique (map (cell_at col_etab) srs)))).
  set (g := fun e => mkExpander e (length (rows (groupe e dg)))
                       (mkTable colonnes_tab4
                          (map (fun r => map (fun k => (k, getd k r)) colonnes_tab4)
                               (rows (groupe e dg))))).
  rewrite (map_option_map _ g).
  2:{ intros e _. rewrite project_Some; [reflexivity | exact Hcols]. }
  assert (Hnames : forall s, In s names <->
                     exists r, In r (rows d) /\ cell_at col_etab r = Str s).
  { intros s. unfold names. rewrite sorted_In, dropna_In, unique_In, in_map_iff.
    split; intros (r & H1 & H2).
    - exists r. split; [now apply (Permutation_in _ Hperm) | assumption].
    - exists r. split; [assumption|].
      now apply (Permutation_in _ (Permutation_sym Hperm)). }
  assert (Hsize : forall e, length (rows (groupe e dg))
                    = length (filter (fun r => cell_eq (cell_at col_etab r) e)
                                     (rows d))).
  { intros e. unfold groupe, select, dg. cbn [rows].
    apply Permutation_length. now apply filter_perm. }
  exists (map g (map Str names)), names.
  split; [reflexivity|].
  split; [rewrite map_map; apply map_id_in; intros; reflexivity|].
  split; [apply sorted_strict, dropna_NoDup, unique_from_NoDup|].
  split; [exact Hnames|]. split.
  - apply Forall_forall. intros x Hx.
    apply in_map_iff in Hx as (e & <- & Hin).
    apply in_map_iff in Hin as (s & <- & Hs).
    unfold g. cbn [exp_utilisateurs exp_etablissement exp_table rows columns].
    rewrite length_map, Hsize. split; [reflexivity|]. split; [|split; reflexivity].
    apply Hnames in Hs as (r & Hr & Hk).
    assert (Hf : In r (filter (fun r => cell_eq (cell_at col_etab r) (Str s))
                              (rows d))).
    { apply filter_In. split; [assumption|]. rewrite Hk. simpl. apply eqb_refl. }
    destruct (filter _ (rows d)); [destruct Hf | simpl; lia].
  - rewrite !map_map. unfold g. cbn [exp_utilisateurs].
    erewrite map_ext.
    2:{ intros s. rewrite Hsize.
        rewrite <- (filter_map_length (fun c => cell_eq c (Str s))
                      (cell_at col_etab)).
        erewrite filter_ext; [reflexivity|]. intros c. apply cell_eq_Str. }
    rewrite group_sizes_sum.
    + rewrite dropna_length.
      rewrite <- (length_map (cell_at col_etab) (rows d)).
      f_equal. apply filter_all. intros c Hc.
      apply in_map_iff in Hc as (r & <- & Hr). specialize (Hna r Hr).
      destruct (cell_at col_etab r); [congruence | reflexivity].
    + apply sorted_NoDup, dropna_NoDup, unique_from_NoDup.
    + intros s. rewrite Hnames, in_map_iff. split; intros (r & H1 & H2); eauto.
Qed.

Lemma tab4_correct_witness :
  has col_etab exemple_df = true
  /\ exists exps, tab4 exemple_df = Some exps
       /\ map (fun x => (exp_etablissement x, exp_utilisateurs x)) exps
          = [(Str (lit "UniA"), 1); (Str (lit "UniB"), 2)].
Proof.
  split; [reflexivity|].
  destruct (tab4_correct exemple_df eq_refl eq_refl) as (exps & names & Ht & _).
  - intros r [<- | [<- | [<- | []]]]; discriminate.
  - exists exps. split; [exact Ht|]. injection Ht as <-. reflexivity.
Defined.

Lemma sorted_rows_keys (rs : list (row value)) (c : cell) :
  In c (unique (map (cell_at col_etab) (fold_right (insert_row col_etab) [] rs)))
  <-> exists r, In r rs /\ cell_at col_etab r = c.
Proof.
  rewrite unique_In, in_map_iff.
  pose proof (sort_rows_perm col_etab rs) as Hperm.
  split; intros (r & H1 & H2).
  - exists r. split; [now apply (Permutation_in _ Hperm) | assumption].
  - exists r. split; [assumption|].
    now apply (Permutation_in _ (Permutation_sym Hperm)).
Qed.

Lemma unique_from_seen (l seen : list cell) :
  (forall c, In c l -> In c seen) -> unique_from seen l = [].
Proof.
  induction l as [|c l IH]; simpl; intros H; [reflexivity|].
  assert (E : isin c seen = true) by (apply isin_In, H; now left).
  rewrite E. apply IH. intros x Hx. apply H. now right.
Qed.

Lemma unique_all_NaN (l : list cell) :
  l <> [] -> (forall c, In c l -> c = NaN) -> unique l = [NaN].
Proof.
  intros Hne H. destruct l as [|c l]; [congruence|].
  rewrite (H c (or_introl eq_refl)) in *. unfold unique. simpl. f_equal.
  apply unique_from_seen. intros x Hx. left. symmetry. apply H. now right.
Qed.

(** The fourth tab raises in three cases: the institution column is
    absent; a user without institution is shown beside a user with one
    (the names cannot be sorted); or one of the five columns shown is
    absent while at least one user is shown.  With no user it shows
    nothing, whatever the columns; with users who all lack an institution
    it opens a single expander, of no user. *)
Theorem tab4_erreurs (d : DataFrame) :
  (has col_etab d = false -> tab4 d = None)
  /\ (has col_etab d = true ->
      (rows d = [] -> tab4 d = Some [])
      /\ (forall r1 r2 s, In r1 (rows d) -> In r2 (rows d) ->
            cell_at col_etab r1 = NaN -> cell_at col_etab r2 = Str s ->
            tab4 d = None)
      /\ (rows d <> [] ->
          (forall r, In r (rows d) -> cell_at col_etab r <> NaN) ->
          forallb (fun k => has k d) colonnes_tab4 = false ->
          tab4 d = None)
      /\ (rows d <> [] ->
          (forall r, In r (rows d) -> cell_at col_etab r = NaN) ->
          forallb (fun k => has k d) colonnes_tab4 = true ->
          tab4 d = Some [mkExpander NaN 0 (mkTable colonnes_tab4 [])])).
Proof.
  split.
  - intros He. unfold tab4, sort_values. now rewrite He.
  - intros He. unfold tab4, sort_values. rewrite He. cbn [rows].
    set (srs := fold_right (insert_row col_etab) [] (rows d)).
    set (cells := unique (map (cell_at col_etab) srs)).
    assert (Hkeys : forall c, In c cells <->
                      exists r, In r (rows d) /\ cell_at col_etab r = c)
      by (intros c; apply sorted_rows_keys).
    split; [|split; [|split]].
    + intros Hr. unfold cells, srs. rewrite Hr. reflexivity.
    + intros r1 r2 s H1 H2 E1 E2.
      assert (Hn : In NaN cells) by (apply Hkeys; eauto).
      assert (Hs : In (Str s) cells) by (apply Hkeys; eauto).
      unfold sorted_cells.
      assert (F : forallb isna cells = false).
      { apply not_true_is_false. intros F. rewrite forallb_forall in F.
        specialize (F _ Hs). discriminate. }
      assert (X : existsb isna cells = true).
      { apply existsb_exists. exists NaN. split; [assumption | reflexivity]. }
      now rewrite F, X.
    + intros Hne Hna Hcols.
      rewrite sorted_cells_texts.
      2:{ intros c Hc. apply Hkeys in Hc as (r & Hr & <-). now apply Hna. }
      destruct (rows d) as [|r rs] eqn:Er; [congruence|].
      destruct (cell_at col_etab r) as [|s] eqn:Es.
      { exfalso. apply (Hna r); [now left | assumption]. }
      assert (Hs : In (Str s) (map Str (sorted (dropna cells)))).
      { apply in_map. apply sorted_In, dropna_In, Hkeys.
        exists r. split; [now left | assumption]. }
      apply (map_option_None _ _ (Str s) Hs).
      rewrite project_None; [reflexivity | exact Hcols].
    + intros Hne Hall Hcols.
      assert (Hu : cells = [NaN]).
      { unfold cells. apply unique_all_NaN.
        - intros E. apply map_eq_nil in E.
          apply Hne. apply Permutation_nil.
          rewrite <- E. apply sort_rows_perm.
        - intros c Hc. apply in_map_iff in Hc as (r & <- & Hr). apply Hall.
          now apply (Permutation_in _ (sort_rows_perm col_etab (rows d))). }
      rewrite Hu. cbn [sorted_cells forallb isna andb map_option].
      rewrite project_Some by exact Hcols.
      unfold groupe, select. cbn [rows columns].
      rewrite (filter_none _ srs); [reflexivity|].
      intros r _. destruct (cell_at col_etab r); reflexivity.
Qed.

Lemma tab4_erreurs_witness :
  exists df, charger_donnees exemple_sans_email = Charge df
    /\ has col_etab df = true
    /\ has col_email df = false
    /\ tab4 df = None.
Proof.
  eexists. split; [reflexivity|]. split; [reflexivity|]. split; [reflexivity|].
  match goal with |- tab4 ?d = None =>
    destruct (proj2 (tab4_erreurs d) eq_refl) as (_ & _ & Hcol & _);
    apply Hcol
  end.
  - discriminate.
  - intros r [<- | []]. discriminate.
  - reflexivity.
Defined.

(** ** The cross table of privileges per institution (lines 134-135) *)

Lemma eqb_sym (a b : str) : PyStr.eqb a b = PyStr.eqb b a.
Proof.
  destruct (PyStr.eqb a b) eqn:E.
  - apply eqb_eq in E. subst. symmetry. apply eqb_refl.
  - symmetry. apply eqb_neq. apply eqb_neq in E. congruence.
Qed.

Lemma group_size_map (e p e' : str) (l : list str) :
  length (filter (pair_eqb (e, p)) (map (fun q => (e', q)) l))
  = if PyStr.eqb e' e then occurrences l p else 0.
Proof.
  unfold occurrences. rewrite (eqb_sym e' e).
  induction l as [|q l IH]; cbn [map filter count_occ length].
  - now destruct (PyStr.eqb e e').
  - unfold pair_eqb at 1. cbn [fst snd].
    destruct (PyStr.eqb e e') eqn:Ee; cbn [andb].
    + destruct (str_eq_dec q p) as [-> | Hne].
      * rewrite eqb_refl. cbn [length]. now rewrite IH.
      * assert (E : PyStr.eqb p q = false) by (apply eqb_neq; congruence).
        rewrite E. exact IH.
    + exact IH.
Qed.

Lemma group_size_rows (rs : list (row value)) (cols : list str) (e p : str) :
  group_size e p (paires (mkTable cols rs))
  = occurrences_etab (mkTable cols rs) e p.
Proof.
  unfold group_size, paires, occurrences_etab, rows_etab. cbn [rows].
  induction rs as [|r rs IH]; simpl; [reflexivity|].
  rewrite filter_app, length_app, IH.
  destruct (cell_at col_etab r) as [|e'] eqn:Er; simpl; [reflexivity|].
  rewrite group_size_map. destruct (PyStr.eqb e' e); reflexivity.
Qed.

Lemma paires_fst (d : DataFrame) (e : str) :
  In e (map fst (paires d)) <->
  exists r, In r (rows d) /\ cell_at col_etab r = Str e
            /\ liste_at col_privileges r <> [].
Proof.
  unfold paires. rewrite in_map_iff. split.
  - intros ([e' p] & <- & Hin). apply in_flat_map in Hin as (r & Hr & Hin).
    destruct (cell_at col_etab r) as [|e0] eqn:E; [destruct Hin|].
    apply in_map_iff in Hin as (q & [= <- <-] & Hq).
    exists r. repeat split; try assumption. intros E0. now rewrite E0 in Hq.
  - intros (r & Hr & E & Hne).
    destruct (liste_at col_privileges r) as [|q l] eqn:El; [congruence|].
    exists (e, q). split; [reflexivity|]. apply in_flat_map. exists r.
    split; [assumption|]. rewrite E, El. now left.
Qed.

Lemma paires_snd (d : DataFrame) (p : str) :
  In p (map snd (paires d)) <->
  exists r, In r (rows d) /\ cell_at col_etab r <> NaN
            /\ In p (liste_at col_privileges r).
Proof.
  unfold paires. rewrite in_map_iff. split.
  - intros ([e' q] & <- & Hin). apply in_flat_map in Hin as (r & Hr & Hin).
    destruct (cell_at col_etab r) as [|e0] eqn:E; [destruct Hin|].
    apply in_map_iff in Hin as (q' & [= <- <-] & Hq).
    exists r. repeat split; try assumption. now rewrite E.
  - intros (r & Hr & E & Hp).
    destruct (cell_at col_etab r) as [|e] eqn:Ee; [congruence|].
    exists (e, p). split; [reflexivity|]. apply in_flat_map. exists r.
    split; [assumption|]. rewrite Ee. now apply in_map.
Qed.

Lemma list_sum_map_add {X : Type} (f g : X -> nat) (l : list X) :
  list_sum (map (fun x => f x + g x) l) = list_sum (map f l) + list_sum (map g l).
Proof. induction l as [|x l IH]; simpl; [reflexivity | rewrite IH; lia]. Qed.

Lemma list_sum_indicator (a : str) (c : nat) (K : list str) :
  NoDup K ->
  list_sum (map (fun e => if PyStr.eqb a e then c else 0) K)
  = if mem a K then c else 0.
Proof.
  unfold mem. induction 1 as [|k K Hk _ IH]; simpl; [reflexivity|].
  rewrite IH. destruct (PyStr.eqb a k) eqn:E; simpl; [|reflexivity].
  apply eqb_eq in E. subst k.
  assert (M : existsb (PyStr.eqb a) K = false).
  { apply not_true_is_false. intros M. now apply mem_In in M. }
  rewrite M. lia.
Qed.

Lemma occurrences_etab_cons (cols : list str) (r : row value)
  (rs : list (row value)) (e p : str) :
  occurrences_etab (mkTable cols (r :: rs)) e p
  = (if cell_eqb (cell_at col_etab r) (Str e)
     then occurrences (liste_at col_privileges r) p else 0)
    + occurrences_etab (mkTable cols rs) e p.
Proof.
  unfold occurrences_etab, rows_etab. cbn [rows filter].
  destruct (cell_eqb (cell_at col_etab r) (Str e)); reflexivity.
Qed.

Lemma all_privileges_avec_cons (cols : list str) (r : row value)
  (rs : list (row value)) (p : str) :
  occurrences (all_privileges (avec_etablissement (mkTable cols (r :: rs)))) p
  = (if isna (cell_at col_etab r)
     then 0 else occurrences (liste_at col_privileges r) p)
    + occurrences (all_privileges (avec_etablissement (mkTable cols rs))) p.
Proof.
  unfold avec_etablissement, all_privileges, select, occurrences.
  cbn [rows filter]. destruct (isna (cell_at col_etab r)); cbn [negb].
  - reflexivity.
  - cbn [map List.concat]. now rewrite count_occ_app.
Qed.

(** Summing the occurrences of [p] institution by institution gives its
    occurrences in the rows that have an institution. *)
Lemma occurrences_etab_sum (cols : list str) (rs : list (row value))
  (K : list str) (p : str) :
  NoDup K ->
  (forall r e, In r rs -> cell_at col_etab r = Str e ->
               liste_at col_privileges r <> [] -> In e K) ->
  list_sum (map (fun e => occurrences_etab (mkTable cols rs) e p) K)
  = occurrences (all_privileges (avec_etablissement (mkTable cols rs))) p.
Proof.
  intros Hnd. induction rs as [|r rs IH]; intros Hcov.
  - clear. induction K as [|k K IH]; [reflexivity | exact IH].
  - rewrite (map_ext _ _ (fun e => occurrences_etab_cons cols r rs e p)).
    rewrite list_sum_map_add, all_privileges_avec_cons.
    rewrite IH by (intros r0 e H; apply Hcov; now right). f_equal.
    destruct (cell_at col_etab r) as [|e'] eqn:Er; cbn [cell_eqb isna].
    + clear. induction K as [|k K IH]; [reflexivity | exact IH].
    + rewrite (list_sum_indicator e' _ K Hnd).
      destruct (mem e' K) eqn:M; [reflexivity|].
      destruct (liste_at col_privileges r) as [|q l] eqn:El; [reflexivity|].
      exfalso. assert (Hin : In e' K).
      { apply (Hcov r e' (or_introl eq_refl) Er). rewrite El. discriminate. }
      apply mem_In in Hin. congruence.
Qed.

(** The cross table of the second tab has one line per institution
    holding at least one privilege and one column per privilege held in
    an institution, both in strictly ascending order; each cell is the
    number of times that the users of the institution hold the privilege;
    and the cells of a column add up to the occurrences of the privilege
    in the rows that have an institution, which is the count of the
    ranking of privileges when no row lacks its institution. *)
Theorem privileges_etab_correct (d : DataFrame) :
  has col_privileges d = true ->
  has col_etab d = true ->
  exists ct, privileges_etab d = Some ct
    /\ StronglySorted (fun a b => PyStr.ltb a b = true) (ct_index ct)
    /\ StronglySorted (fun a b => PyStr.ltb a b = true) (ct_columns ct)
    /\ (forall e, In e (ct_index ct) <->
          exists r, In r (rows d) /\ cell_at col_etab r = Str e
                    /\ liste_at col_privileges r <> [])
    /\ (forall p, In p (ct_columns ct) <->
          exists r, In r (rows d) /\ cell_at col_etab r <> NaN
                    /\ In p (liste_at col_privileges r))
    /\ ct_values ct
       = map (fun e => map (fun p => occurrences_etab d e p) (ct_columns ct))
             (ct_index ct)
    /\ (forall p,
          list_sum (map (fun e => occurrences_etab d e p) (ct_index ct))
          = occurrences (all_privileges (avec_etablissement d)) p)
    /\ ((forall r, In r (rows d) -> cell_at col_etab r <> NaN) ->
        forall p,
          list_sum (map (fun e => occurrences_etab d e p) (ct_index ct))
          = occurrences (all_privileges d) p).
Proof.
  intros Hp He. unfold privileges_etab. rewrite Hp, He. cbn [andb].
  eexists. split; [reflexivity|]. cbn [ct_index ct_columns ct_values].
  assert (Hidx : forall e, In e (sorted (nodup str_eq_dec (map fst (paires d)))) <->
                   exists r, In r (rows d) /\ cell_at col_etab r = Str e
                             /\ liste_at col_privileges r <> []).
  { intros e. now rewrite sorted_In, nodup_In, paires_fst. }
  assert (Hsum : forall p,
            list_sum (map (fun e => occurrences_etab d e p)
                          (sorted (nodup str_eq_dec (map fst (paires d)))))
            = occurrences (all_privileges (avec_etablissement d)) p).
  { intros p. destruct d as [cols rs]. apply occurrences_etab_sum.
    - apply sorted_NoDup, NoDup_nodup.
    - intros r e Hr E Hne. apply Hidx. exists r. auto. }
  split; [apply sorted_strict, NoDup_nodup|].
  split; [apply sorted_strict, NoDup_nodup|].
  split; [exact Hidx|]. split; [|split; [|split; [exact Hsum|]]].
  - intros p. now rewrite sorted_In, nodup_In, paires_snd.
  - apply map_ext. intros e. apply map_ext. intros p.
    destruct d as [cols rs]. apply group_size_rows.
  - intros Hna p. rewrite Hsum. do 2 f_equal.
    unfold avec_etablissement, select. destruct d as [cols rs]. cbn [rows columns].
    f_equal. apply filter_all. intros r Hr. specialize (Hna r Hr).
    cbn [rows] in Hna. destruct (cell_at col_etab r); [congruence | reflexivity].
Qed.

Lemma privileges_etab_correct_witness :
  has col_privileges exemple_df = true
  /\ has col_etab exemple_df = true
  /\ privileges_etab exemple_df
     = Some (mkCrosstab [lit "UniA"; lit "UniB"]
               [gestion; inscription; theses_hdr]
               [[1; 1; 0]; [2; 0; 1]]).
Proof.
  split; [reflexivity|]. split; [reflexivity|].
  destruct (privileges_etab_correct exemple_df eq_refl eq_refl) as (ct & Hct & _).
  rewrite Hct. f_equal. injection Hct as <-. reflexivity.
Defined.

(** ** A loaded file without the institution column *)




(** ** The text of a list in the export *)

Lemma split_go_first (t cur : str) :
  exists a rest, split_go false cur t = (rev cur ++ a) :: rest.
Proof.
  revert cur. induction t as [|c t IH]; intros cur; simpl.
  - exists [], []. now rewrite app_nil_r.
  - destruct (is_comma c && head_isspace t).
    + exists [], (split_go true [] t). now rewrite app_nil_r.
    + destruct (IH (c :: cur)) as (a & rest & ->).
      exists (c :: a), rest. simpl. now rewrite <- app_assoc.
Qed.

Lemma strip_head (c : N) (a : str) :
  isspace c = false -> exists m, strip (c :: a) = c :: m.
Proof.
  intros Hc. destruct (strip_spec (c :: a)) as (l & r & Heq & Hl & Hr & _).
  destruct l as [|x l].
  - destruct (strip (c :: a)) as [|y m].
    + simpl in Heq. subst r. simpl in Hr. now rewrite Hc in Hr.
    + simpl in Heq. injection Heq as <- _. now exists m.
  - simpl in Heq. injection Heq as <- _. simpl in Hl. now rewrite Hc in Hl.
Qed.

(** The parser never gives back a list from the text that the export
    writes for it: what it reads from that text is not empty and begins
    with a text that opens with a bracket.  So the three list columns of
    an exported file read back differently from the lists, unless a list
    begins with a text opening with a bracket. *)
Theorem str_of_list_relu (l : list str) :
  exists e es,
    nettoyer_liste (read_cell (str_of_list l)) = (91%N :: e) :: es
    /\ ((forall x xs, l = x :: xs -> hd 0%N x <> 91%N) ->
        nettoyer_liste (read_cell (str_of_list l)) <> l).
Proof.
  unfold str_of_list. set (body := join (lit ", ") (map repr_str l) ++ [93%N]).
  assert (Hr : read_cell (91%N :: body) = Str (91%N :: body)).
  { unfold read_cell.
    assert (M : mem (91%N :: body) na_values = false).
    { unfold mem, na_values. cbn [map existsb lit].
      repeat (apply orb_false_iff; split); try reflexivity;
        apply eqb_neq; discriminate. }
    now rewrite M. }
  rewrite Hr, nettoyer_liste_Str. unfold re_split. cbn [split_go].
  change (is_comma 91 && head_isspace body) with false. cbn [andb].
  destruct (split_go_first body [91%N]) as (a & rest & ->).
  cbn [rev app map]. destruct (strip_head 91%N a eq_refl) as (m & ->).
  cbn [filter truthy]. exists m, (filter truthy (map strip rest)).
  split; [reflexivity|]. intros Hl E. destruct l as [|x xs]; [discriminate|].
  injection E as E _. apply (Hl x xs eq_refl). now rewrite <- E.
Qed.

Lemma str_of_list_relu_witness :
  nettoyer_liste (read_cell (str_of_list [theses_hdr; gestion]))
  <> [theses_hdr; gestion].
Proof.
  destruct (str_of_list_relu [theses_hdr; gestion]) as (e & es & _ & H).
  apply H. intros x xs [= <- _]. discriminate.
Defined.
